(** * MaxPreps scraper: header normalizer, table classifier, category merger

    A shallow embedding of the data-transformation core of
    [maxpreps_scraper.py] (class [MaxPrepsScraper]) and the properties its
    specification states about it.

    Modelling conventions.
    - A Python [str] is a Rocq [string].  The development covers ASCII
      header and cell text: [str.upper], [str.lower] and [str.strip] are
      modelled on the code points below 128 (letters [a-z]/[A-Z]; white
      space 9-13, 28-32); other characters have no case and are not
      white space in the model.
    - A pandas [DataFrame] is a list of column labels and a list of rows of
      cells; a cell is [Some text] or [None] (a missing value).
    - A parsed [<table>] is the list of its [<tr>] rows, each the list of
      the stripped texts of its cells.
    - An exception that leaves a function is an [Err] result. *)

From Stdlib Require Import Ascii String.
From stdpp Require Import base option list sets gmap strings pretty sorting.

(** ** Exceptions *)

(** The exceptions pandas raises in the calls the scraper makes:
    [KeyError] for labels missing from the column index, the two kinds of
    [ValueError] (a join-key label that is not unique, data whose width
    differs from the number of column labels) and [MergeError] when the
    [_x]/[_y] suffixes produce duplicate labels. *)
Inductive exn : Type :=
  | KeyError (labels : list string)
  | LabelNotUnique (label : string)
  | ColumnsMismatch (passed had : nat)
  | MergeError (dups : list string).

Inductive result (A : Type) : Type :=
  | Ok (a : A)
  | Err (e : exn).
Arguments Ok {A} a.
Arguments Err {A} e.

Global Instance result_ret : MRet result := λ A a, Ok a.
Global Instance result_bind : MBind result := λ A B k r,
  match r with
  | Ok a => k a
  | Err e => Err e
  end.

Definition is_err {A} (r : result A) : Prop := ∃ e, r = Err e.

(** ** Python string operations *)

Module PyStr.

Definition code (c : ascii) : nat := nat_of_ascii c.

(** [str.isspace] on ASCII: TAB, LF, VT, FF, CR, FS, GS, RS, US, SPACE. *)
Definition is_space (c : ascii) : bool :=
  let n := code c in
  ((9 <=? n) && (n <=? 13) || (28 <=? n) && (n <=? 32))%nat.

Definition is_lower (c : ascii) : bool :=
  let n := code c in ((97 <=? n) && (n <=? 122))%nat.

Definition is_upper (c : ascii) : bool :=
  let n := code c in ((65 <=? n) && (n <=? 90))%nat.

Definition upper_char (c : ascii) : ascii :=
  if is_lower c then ascii_of_nat (code c - 32) else c.

Definition lower_char (c : ascii) : ascii :=
  if is_upper c then ascii_of_nat (code c + 32) else c.

Fixpoint upper (s : string) : string :=
  match s with
  | EmptyString => EmptyString
  | String c s' => String (upper_char c) (upper s')
  end.

Fixpoint lower (s : string) : string :=
  match s with
  | EmptyString => EmptyString
  | String c s' => String (lower_char c) (lower s')
  end.

Fixpoint lstrip (s : string) : string :=
  match s with
  | EmptyString => EmptyString
  | String c s' => if is_space c then lstrip s' else s
  end.

Fixpoint rstrip (s : string) : string :=
  match s with
  | EmptyString => EmptyString
  | String c s' =>
      match rstrip s' with
      | EmptyString => if is_space c then EmptyString else String c EmptyString
      | t => String c t
      end
  end.

(** [s.strip()] *)
Definition strip (s : string) : string := rstrip (lstrip s).

Fixpoint startswith (p s : string) : bool :=
  match p, s with
  | EmptyString, _ => true
  | String a p', String b s' => if Ascii.eqb a b then startswith p' s' else false
  | String _ _, EmptyString => false
  end.

(** [p in s] for two strings: [p] occurs in [s] as a contiguous slice. *)
Fixpoint contains (p s : string) : bool :=
  startswith p s ||
  match s with
  | EmptyString => false
  | String _ s' => contains p s'
  end.

(** [s.replace(old, new)] for a non-empty [old], scanning from the left:
    [skip] counts the characters of a match that are still to be passed. *)
Fixpoint replace_from (old new : string) (skip : nat) (s : string) : string :=
  match s with
  | EmptyString => EmptyString
  | String c s' =>
      match skip with
      | S k => replace_from old new k s'
      | O =>
          if startswith old s
          then new +:+ replace_from old new (String.length old - 1) s'
          else String c (replace_from old new 0 s')
      end
  end.

(** An empty [old] matches before every character and at the end. *)
Fixpoint intersperse (new s : string) : string :=
  match s with
  | EmptyString => new
  | String c s' => new +:+ String c (intersperse new s')
  end.

Definition replace (old new s : string) : string :=
  match old with
  | EmptyString => intersperse new s
  | String _ _ => replace_from old new 0 s
  end.

(** A string that does not begin with white space. *)
Definition no_lead (s : string) : Prop :=
match s with
| EmptyString => True
| String c _ => is_space c = false
end.

End PyStr.

(** ** Header normalizer: [_normalize_headers] *)

Definition header_map_items : list (string * string) :=
  [ ("BATTING AVG", "AVG"); ("BA", "AVG");
    ("RUNS BATTED IN", "RBI"); ("RBI", "RBI");
    ("RUNS SCORED", "R"); ("R", "R");
    ("AT BATS", "AB"); ("AB", "AB");
    ("HITS", "H"); ("H", "H");
    ("DOUBLES", "2B"); ("2B", "2B");
    ("TRIPLES", "3B"); ("3B", "3B");
    ("HOME RUNS", "HR"); ("HR", "HR");
    ("WALKS", "BB"); ("BB", "BB");
    ("STRIKEOUTS", "K"); ("K", "K");
    ("OPPONENT AVG", "OBA"); ("OPP BA", "OBA"); ("OPP AVG", "OBA");
    ("ON BASE %", "OBP"); ("ON BASE PCT", "OBP");
    ("WILD PITCHES", "WP");
    ("HIT BATTERS", "HBP");
    ("SACRIFICE FLIES", "SF");
    ("SACRIFICE HITS", "SH/B");
    ("PITCH COUNT", "#P"); ("PITCHES", "#P");
    ("BALKS", "BK");
    ("PICKOFFS", "PO");
    ("STOLEN BASES AGAINST", "SB");
    ("EARNED RUN AVERAGE", "ERA");
    ("INNINGS PITCHED", "IP");
    ("FIELDING PERCENTAGE", "FLD%");
    ("PUTOUTS", "PO");
    ("ASSISTS", "A");
    ("ERRORS", "E");
    ("DOUBLE PLAYS", "DP");
    ("STOLEN BASES", "SB");
    ("CAUGHT STEALING", "CS");
    ("GAMES PLAYED", "GP");
    ("GAMES STARTED", "GS");
    ("APPEARANCES", "APP") ].

(** The dict literal [header_map]. *)
Definition header_map : gmap string string := list_to_map header_map_items.

(** [s.strip().upper()] *)
Definition strip_upper (s : string) : string := PyStr.upper (PyStr.strip s).

(** One iteration of the loop body: [header.strip().upper()] followed by
    [header_map.get(header, header)]. *)
Definition normalize_header (header : string) : string :=
  let header := strip_upper header in
  default header (header_map !! header).

Definition _normalize_headers (headers : list string) : list string :=
  normalize_header <$> headers.

(** ** Table classifier: [_determine_table_type] *)

Inductive table_type : Type := batting | pitching | fielding | baserunning.

Global Instance table_type_eq_dec : EqDecision table_type.
Proof. solve_decision. Defined.

Definition pitching_basic : gset string :=
  {[ "ERA"; "W"; "L"; "W%"; "APP" ]}.
Definition pitching_advanced : gset string :=
  {[ "IP"; "H"; "R"; "ER"; "BB"; "SO" ]}.
Definition pitching_additional : gset string :=
  {[ "OBA"; "WP"; "HBP"; "BK" ]}.
Definition batting_required : gset string :=
  {[ "AVG"; "AB"; "H"; "R"; "RBI" ]}.
Definition batting_additional : gset string :=
  {[ "2B"; "3B"; "HR"; "BB"; "K"; "HBP"; "SF"; "SH"; "ROE"; "FC"; "LOB";
     "OBP"; "SLG"; "OPS" ]}.
Definition fielding_required : gset string :=
  {[ "FPCT"; "TC"; "FLD%" ]}.
Definition fielding_additional : gset string :=
  {[ "PO"; "A"; "E"; "DP" ]}.
Definition baserunning_required : gset string :=
  {[ "SB"; "CS"; "SBA" ]}.

(** [any(x in headers for x in s)] for a set [s] and a list [headers]. *)
Definition any_in (s : gset string) (headers : list string) : bool :=
  bool_decide (set_Exists (λ x, x ∈ headers) s).

(** The classifier on the column labels of a [DataFrame]
    ([col.strip().upper()] for each column). *)
Definition _determine_table_type (columns : list string) : option table_type :=
  let headers := strip_upper <$> columns in
  if bool_decide (headers = []) then None else
  let headers_set : gset string := list_to_set headers in
  if ((3 <=? size (pitching_basic ∩ headers_set)) ||
      (3 <=? size (pitching_advanced ∩ headers_set)) ||
      (2 <=? size (pitching_additional ∩ headers_set)))%nat
  then Some pitching
  else if any_in fielding_required headers && any_in fielding_additional headers
  then Some fielding
  else if any_in baserunning_required headers
  then Some baserunning
  else if ((2 <=? size (batting_required ∩ headers_set)) ||
           (2 <=? size (batting_additional ∩ headers_set)))%nat
  then Some batting
  else None.

(** ** Data frames *)

(** A cell holds a text or is missing. *)
Abbreviation cell := (option string).

Record DataFrame : Type := mkFrame {
  columns : list string;
  rows : list (list cell)
}.

(** [pd.DataFrame()] *)
Definition empty_frame : DataFrame := mkFrame [] [].

(** [df.empty]: some axis has length 0. *)
Definition df_empty (df : DataFrame) : bool :=
  bool_decide (columns df = []) || bool_decide (rows df = []).

(** A frame is rectangular: every row has one cell per column. *)
Definition wf_frame (df : DataFrame) : Prop :=
  Forall (λ row, length row = length (columns df)) (rows df).

Definition pad_row (k : nat) (row_data : list string) : list cell :=
  (Some <$> row_data) ++ replicate (k - length row_data) None.

(** [pd.DataFrame(data, columns=headers)] for a list of lists: short rows
    are filled with missing values up to the longest row, and the width of
    the data has to equal the number of labels. *)
Definition make_frame (data : list (list string)) (headers : list string)
  : result DataFrame :=
  if bool_decide (data = []) then Ok (mkFrame headers []) else
  let k := max_list (length <$> data) in
  if bool_decide (k = length headers)
  then Ok (mkFrame headers (pad_row k <$> data))
  else Err (ColumnsMismatch (length headers) k).

(** Positions of the columns labelled [label]. *)
Definition positions (cols : list string) (label : string) : list nat :=
  filter (λ i, cols !! i = Some label) (seq 0 (length cols)).

Definition cell_at (row : list cell) (i : nat) : cell := default None (row !! i).

(** [df[labels]] for a list of labels: each label selects every column
    carrying it; a label that labels no column raises [KeyError]. *)
Definition df_select (df : DataFrame) (labels : list string) : result DataFrame :=
  let missing := filter (λ l, l ∉ columns df) labels in
  if bool_decide (missing ≠ []) then Err (KeyError missing) else
  let idx := labels ≫= positions (columns df) in
  Ok (mkFrame ((λ i, default "" (columns df !! i)) <$> idx)
              ((λ row, cell_at row <$> idx) <$> rows df)).

(** [df[name] = value] for a scalar: an existing label is overwritten in
    every column that carries it, a new label is appended as last column. *)
Definition set_column (name value : string) (df : DataFrame) : DataFrame :=
  if bool_decide (name ∈ columns df)
  then mkFrame (columns df)
         ((λ row, imap (λ i c, if bool_decide (columns df !! i = Some name)
                               then Some value else c) row) <$> rows df)
  else mkFrame (columns df ++ [name]) ((λ row, row ++ [Some value]) <$> rows df).

(** ** [pd.merge(left, right, on=keys, how='outer')] *)

Module Pandas.

(** Order of join-key values: strings by code point, missing values last. *)
Definition cell_leb (a b : cell) : bool :=
  match a, b with
  | Some x, Some y => Stdlib.Strings.String.leb x y
  | Some _, None => true
  | None, Some _ => false
  | None, None => true
  end.

Fixpoint key_leb (k1 k2 : list cell) : bool :=
  match k1, k2 with
  | [], _ => true
  | _ :: _, [] => false
  | a :: k1', b :: k2' =>
      if bool_decide (a = b) then key_leb k1' k2' else cell_leb a b
  end.

Definition key_le : relation (list cell) := λ k1 k2, key_leb k1 k2 = true.

Global Instance key_le_dec : RelDecision key_le.
Proof. intros k1 k2. unfold key_le. apply _. Defined.

Definition sort_keys (ks : list (list cell)) : list (list cell) :=
  merge_sort key_le ks.

(** A join key has to label exactly one column of a frame. *)
Definition check_key (df : DataFrame) (k : string) : result nat :=
  match positions (columns df) k with
  | [] => Err (KeyError [k])
  | [i] => Ok i
  | _ => Err (LabelNotUnique k)
  end.

(** The positions of the keys, checked key by key in the right and then in
    the left frame.  Which of several failing checks is reported is not
    relied upon below. *)
Fixpoint key_positions (left right : DataFrame) (on : list string)
  : result (list (nat * nat)) :=
  match on with
  | [] => Ok []
  | k :: on' =>
      j ← check_key right k;
      i ← check_key left k;
      ps ← key_positions left right on';
      Ok ((i, j) :: ps)
  end.

(** Labels that a suffix made equal to an earlier label although the
    original labels differed from all earlier ones. *)
Fixpoint suffix_dups (renamed original : list string) (seen_r seen_o : list string)
  : list string :=
  match renamed, original with
  | r :: renamed', o :: original' =>
      (if bool_decide (r ∈ seen_r) && negb (bool_decide (o ∈ seen_o))
       then [r] else [])
      ++ suffix_dups renamed' original' (r :: seen_r) (o :: seen_o)
  | _, _ => []
  end.

Definition key_of (pos : list nat) (row : list cell) : list cell :=
  cell_at row <$> pos.

(** The elements of a list at the positions not listed in [pos]; the
    head of the list has position [n]. *)
Fixpoint drop_positions_from {A} (n : nat) (pos : list nat) (l : list A) : list A :=
  match l with
  | [] => []
  | x :: l' =>
      if bool_decide (n ∈ pos) then drop_positions_from (S n) pos l'
      else x :: drop_positions_from (S n) pos l'
  end.

Definition drop_positions {A} (pos : list nat) (l : list A) : list A :=
  drop_positions_from 0 pos l.

(** For a key found in the right frame only: the left part of the result
    row holds the key values in the key columns and is missing elsewhere. *)
Definition left_part_of_key (width : nat) (lpos : list nat) (k : list cell)
  : list cell :=
  (λ i, match list_find (λ p, p = i) lpos with
        | Some (n, _) => cell_at k n
        | None => None
        end) <$> seq 0 width.

Definition joined_rows (lrows rrows : list (list cell)) (lwidth rwidth : nat)
    (lpos rpos : list nat) (k : list cell) : list (list cell) :=
  let ls := filter (λ row, key_of lpos row = k) lrows in
  let rs := filter (λ row, key_of rpos row = k) rrows in
  match ls, rs with
  | [], _ => (λ r, left_part_of_key lwidth lpos k ++ drop_positions rpos r) <$> rs
  | _, [] => (λ l, l ++ replicate rwidth None) <$> ls
  | _, _ => l ← ls; r ← rs; [l ++ drop_positions rpos r]
  end.

(** The outer join on same-named key columns, as pandas 2 documents and
    computes it (older releases only warn about duplicate suffixed labels
    and may order the result rows by first appearance of the key; the
    properties below do not depend on the order of the rows):
    - every key labels exactly one column on each side;
    - the result has the left columns, then the right columns without the
      keys; a label on both sides gets [_x] on the left and [_y] on the
      right, and a duplicate label created by that is an error;
    - the result rows go through the distinct key values in sorted order;
      for one key value, every left row is paired with every right row,
      and a row without partner is completed with missing values. *)
Definition merge_outer (left right : DataFrame) (on : list string)
  : result DataFrame :=
  ps ← key_positions left right on;
  let lpos := ps.*1 in
  let rpos := ps.*2 in
  let rcols := drop_positions rpos (columns right) in
  let llabels := (λ c, if bool_decide (c ∈ rcols) then c +:+ "_x" else c)
                   <$> columns left in
  let rlabels := (λ c, if bool_decide (c ∈ columns left) then c +:+ "_y" else c)
                   <$> rcols in
  let dups := suffix_dups llabels (columns left) [] []
              ++ suffix_dups rlabels rcols [] [] in
  if bool_decide (dups ≠ []) then Err (MergeError dups) else
  let keys := sort_keys (remove_dups ((key_of lpos <$> rows left)
                                      ++ (key_of rpos <$> rows right))) in
  Ok (mkFrame (llabels ++ rlabels)
        (keys ≫= joined_rows (rows left) (rows right)
                   (length (columns left)) (length rcols) lpos rpos)).

End Pandas.

(** ** Row extraction: [_extract_table_data] *)

(** A [<table>] element: its [<tr>] rows, each with the stripped texts of its
    [<td>]/[<th>] cells. *)
Definition Table : Type := list (list string).

(** The test that admits a data row:
    [row_data and len(row_data) > 1 and
     not any(x in row_data[1].lower() for x in ['season', 'totals'])]. *)
Definition keeps_row (row_data : list string) : bool :=
  bool_decide (row_data ≠ []) &&
  (1 <? length row_data)%nat &&
  match row_data !! 1 with
  | Some name =>
      negb (existsb (λ x, PyStr.contains x (PyStr.lower name)) ["season"; "totals"])
  | None => false
  end.

Definition _extract_table_data (table : Table) : DataFrame :=
  let headers := match table with
                 | header_row :: _ => header_row
                 | [] => []
                 end in
  let data := filter (λ row_data, keeps_row row_data = true) (tail table) in
  if bool_decide (headers ≠ []) && bool_decide (data ≠ [])
  then match make_frame data headers with
       | Ok df => df
       | Err _ => empty_frame
       end
  else empty_frame.

(** ** Category merger: [_merge_tables_by_type] *)

Definition key_columns : list string := ["#"; "ATHLETE NAME"].

(** The dict [table_groups], in the insertion order its [items()] follow. *)
Definition table_groups_init : list (table_type * list DataFrame) :=
  [(batting, []); (pitching, []); (fielding, []); (baserunning, [])].

(** [table_groups[table_type].append(df)] *)
Definition append_to_group (t : table_type) (df : DataFrame)
    (groups : list (table_type * list DataFrame)) : list (table_type * list DataFrame) :=
  (λ g, if bool_decide (g.1 = t) then (g.1, g.2 ++ [df]) else g) <$> groups.

(** [df.columns = [col.strip().upper() for col in df.columns]] *)
Definition normalize_columns (df : DataFrame) : DataFrame :=
  mkFrame (strip_upper <$> columns df) (rows df).

(** The first loop: every non-empty frame the classifier recognizes is
    relabelled and appended to the group of its type. *)
Definition group_tables (tables : list DataFrame) : list (table_type * list DataFrame) :=
  foldl (λ groups df,
           if negb (df_empty df) then
             match _determine_table_type (columns df) with
             | Some t => append_to_group t (normalize_columns df) groups
             | None => groups
             end
           else groups)
        table_groups_init tables.

(** The body of the loop over [dfs[1:]]. *)
Definition merge_step (merged_df df : DataFrame) : result DataFrame :=
  let right_columns := filter (λ col, col ∉ key_columns) (columns df) in
  if bool_decide (right_columns ≠ []) then
    right ← df_select df (key_columns ++ right_columns);
    Pandas.merge_outer merged_df right key_columns
  else Ok merged_df.

Fixpoint merge_all (merged_df : DataFrame) (dfs : list DataFrame) : result DataFrame :=
  match dfs with
  | [] => Ok merged_df
  | df :: dfs' => m ← merge_step merged_df df; merge_all m dfs'
  end.

(** The three assignments that add the team information. *)
Definition add_team_info (team_name team_url city_state : string) (df : DataFrame)
  : DataFrame :=
  set_column "STATS_URL" team_url
    (set_column "CITY_STATE" city_state
       (set_column "TEAM" team_name df)).

(** One iteration of the loop over [table_groups.items()]; [None] stands
    for the [continue] on an empty group. *)
Definition merge_group (dfs : list DataFrame) (team_name team_url city_state : string)
  : result (option DataFrame) :=
  match dfs with
  | [] => Ok None
  | first :: rest =>
      merged_df ← merge_all first rest;
      Ok (Some (add_team_info team_name team_url city_state merged_df))
  end.

Fixpoint merge_groups (groups : list (table_type * list DataFrame))
    (team_name team_url city_state : string) : result (list (table_type * DataFrame)) :=
  match groups with
  | [] => Ok []
  | (t, dfs) :: groups' =>
      o ← merge_group dfs team_name team_url city_state;
      merged_tables ← merge_groups groups' team_name team_url city_state;
      Ok (match o with
          | Some merged_df => (t, merged_df) :: merged_tables
          | None => merged_tables
          end)
  end.

(** The dict [merged_tables] is the list of its items in insertion order. *)
Definition _merge_tables_by_type (tables : list DataFrame)
    (team_name team_url city_state : string) : result (list (table_type * DataFrame)) :=
  merge_groups (group_tables tables) team_name team_url city_state.

(** ** Per-team orchestration: [process_team] *)

Record TeamInfo : Type := mkTeam {
  school : string;
  stats_url : string;
  city_state : string
}.

(** What the network and the HTML parser hand to [process_team]: no print
    URL, a 404 response, an exception raised while fetching or saving the
    page (with its text), or the [<table>] elements of the page. *)
Inductive Fetched : Type :=
  | NoPrintUrl
  | NotFound
  | Raised (msg : string)
  | Page (tables : list Table).

(** The files a run appends to: the lines of the teams-without-stats file
    and the frames appended to the per-category statistics files.  The saved
    HTML copy and the log are not modelled. *)
Record Sinks : Type := mkSinks {
  teams_without_stats : list string;
  stats_files : list (table_type * DataFrame)
}.

Definition newline : string := String (ascii_of_nat 10) EmptyString.

Definition _save_team_without_stats (team_name stats_url reason : string)
    (tables_found : nat) (s : Sinks) : Sinks :=
  mkSinks (teams_without_stats s ++
             [team_name +:+ "," +:+ stats_url +:+ "," +:+ reason +:+ ","
                +:+ pretty tables_found +:+ newline])
          (stats_files s).

Section process_team.

(** [str(e)] for the exceptions pandas raises. *)
Variable str_of_exn : exn → string.

Definition process_team (team_info : TeamInfo) (fetched : Fetched) (s : Sinks)
  : Sinks :=
  let team_name := school team_info in
  let team_url := stats_url team_info in
  match fetched with
  | NoPrintUrl => _save_team_without_stats team_name team_url "No print URL found" 0 s
  | NotFound => _save_team_without_stats team_name team_url "404 Error" 0 s
  | Raised msg => _save_team_without_stats team_name team_url ("Error: " +:+ msg) 0 s
  | Page tables =>
      if bool_decide (tables = []) then
        _save_team_without_stats team_name team_url "No tables found" 0 s
      else if (length tables <? 7)%nat then
        _save_team_without_stats team_name team_url "Insufficient tables"
          (length tables) s
      else
        let table_dfs := filter (λ df, df_empty df = false)
                           (_extract_table_data <$> tables) in
        match _merge_tables_by_type table_dfs team_name team_url
                (city_state team_info) with
        | Ok merged_tables =>
            mkSinks (teams_without_stats s) (stats_files s ++ merged_tables)
        | Err e =>
            _save_team_without_stats team_name team_url
              ("Error: " +:+ str_of_exn e) 0 s
        end
  end.

End process_team.

(** ** The classifier as the specification words it *)

Module Spec.

(** The number of indicators that occur among the trimmed, uppercased
    headers. *)
Definition count_present (indicators headers : list string) : nat :=
  length (filter (λ x, x ∈ strip_upper <$> headers) indicators).

Definition at_least (k : nat) (indicators headers : list string) : bool :=
  (k <=? count_present indicators headers)%nat.

Definition is_pitching (headers : list string) : bool :=
  at_least 3 ["ERA"; "W"; "L"; "W%"; "APP"] headers
  || at_least 3 ["IP"; "H"; "R"; "ER"; "BB"; "SO"] headers
  || at_least 2 ["OBA"; "WP"; "HBP"; "BK"] headers.

Definition is_fielding (headers : list string) : bool :=
  at_least 1 ["FPCT"; "TC"; "FLD%"] headers
  && at_least 1 ["PO"; "A"; "E"; "DP"] headers.

Definition is_baserunning (headers : list string) : bool :=
  at_least 1 ["SB"; "CS"; "SBA"] headers.

Definition is_batting (headers : list string) : bool :=
  at_least 2 ["AVG"; "AB"; "H"; "R"; "RBI"] headers
  || at_least 2 ["2B"; "3B"; "HR"; "BB"; "K"; "HBP"; "SF"; "SH"; "ROE"; "FC";
                 "LOB"; "OBP"; "SLG"; "OPS"] headers.

(** The ordered list of (category, predicate) pairs. *)
Definition rules : list (table_type * (list string → bool)) :=
  [ (pitching, is_pitching); (fielding, is_fielding);
    (baserunning, is_baserunning); (batting, is_batting) ].

(** First match wins; no match is [None]. *)
Fixpoint first_match (rs : list (table_type * (list string → bool)))
    (headers : list string) : option table_type :=
  match rs with
  | [] => None
  | (t, p) :: rs' => if p headers then Some t else first_match rs' headers
  end.

Definition classify (headers : list string) : option table_type :=
  first_match rules headers.

End Spec.

(** The name cell contains "season" or "totals" in any letter case. *)
Definition is_summary_name (name : string) : Prop :=
  ∃ word pre post,
    word ∈ ["season"; "totals"] ∧ PyStr.lower name = pre +:+ word +:+ post.

(** The frames of one category, as the grouping loop collects them. *)
Definition group_of (t : table_type) (tables : list DataFrame) : list DataFrame :=
  normalize_columns <$>
    filter (λ df, df_empty df = false ∧ _determine_table_type (columns df) = Some t)
      tables.

(** A frame has both join-key columns. *)
Definition has_key_columns (df : DataFrame) : Prop :=
  ∀ k, k ∈ key_columns → k ∈ columns df.

(** A frame has a column besides the join keys. *)
Definition has_value_column (df : DataFrame) : Prop :=
  filter (λ col, col ∉ key_columns) (columns df) ≠ [].

(** A row of a frame holds [value] in every column labelled [label], and
    there is such a column. *)
Definition carries (df : DataFrame) (row : list cell) (label value : string) : Prop :=
  label ∈ columns df
  ∧ ∀ i, columns df !! i = Some label → row !! i = Some (Some value).

(** The labels left of a frame when the join keys are removed
    ([right_columns] in the merge loop). *)
Definition value_columns (df : DataFrame) : list string :=
  filter (λ col, col ∉ key_columns) (columns df).

(** The positions [df[key_columns + right_columns]] takes the value columns
    from, the labels it gives them and the cells of a row it keeps there. *)
Definition value_positions (df : DataFrame) : list nat :=
  value_columns df ≫= positions (columns df).

Definition value_labels (df : DataFrame) : list string :=
  (λ i, default "" (columns df !! i)) <$> value_positions df.

Definition value_cells (df : DataFrame) (row : list cell) : list cell :=
  cell_at row <$> value_positions df.

(** The join key of a row: its cells in the columns "#" and "ATHLETE NAME". *)
Definition athlete_key (df : DataFrame) (row : list cell) : list (list cell) :=
  (λ k, cell_at row <$> positions (columns df) k) <$> key_columns.

(** The synonym-table reading of the merger: every label of every source
    frame of a category, normalized with the synonym table, labels a column
    of the merged table of that category. *)
Definition merges_normalized_headers (tables : list DataFrame)
    (team_name team_url city_state : string) : Prop :=
  ∀ merged t df d0 c,
    _merge_tables_by_type tables team_name team_url city_state = Ok merged →
    (t, df) ∈ merged →
    d0 ∈ tables → df_empty d0 = false → _determine_table_type (columns d0) = Some t →
    c ∈ columns d0 →
    normalize_header c ∈ columns df.

(** Two frames share no label besides the join keys. *)
Definition share_only_keys (d d' : DataFrame) : Prop :=
  Forall (λ c, c ∈ columns d' → c ∈ key_columns) (columns d).

Fixpoint pairwise_only_keys (dfs : list DataFrame) : Prop :=
  match dfs with
  | [] => True
  | d :: rest => Forall (share_only_keys d) rest ∧ pairwise_only_keys rest
  end.

(** ** Sample frames *)

Module Sample.

(** Athletes 1 and 2 with a batting average. *)
Definition table_A : DataFrame :=
  mkFrame ["#"; "ATHLETE NAME"; "AVG"]
    [ [Some "1"; Some "Ann Roe"; Some ".310"];
      [Some "2"; Some "Bea Poe"; Some ".275"] ].

(** Athletes 2 and 3 with an earned run average. *)
Definition table_B : DataFrame :=
  mkFrame ["#"; "ATHLETE NAME"; "ERA"]
    [ [Some "2"; Some "Bea Poe"; Some "2.10"];
      [Some "3"; Some "Cat Doe"; Some "3.45"] ].

(** Two batting frames as the extraction delivers them. *)
Definition batting_1 : DataFrame :=
  mkFrame ["#"; "Athlete Name"; "AVG"; "AB"]
    [ [Some "1"; Some "Ann Roe"; Some ".310"; Some "29"];
      [Some "2"; Some "Bea Poe"; Some ".275"; Some "40"] ].

Definition batting_2 : DataFrame :=
  mkFrame ["#"; "Athlete Name"; "H"; "R"]
    [ [Some "2"; Some "Bea Poe"; Some "11"; Some "6"];
      [Some "3"; Some "Cat Doe"; Some "4"; Some "2"] ].

(** A batting frame whose name column has another label. *)
Definition batting_3 : DataFrame :=
  mkFrame ["#"; "Name"; "2B"; "3B"]
    [ [Some "2"; Some "Bea Poe"; Some "1"; Some "0"] ].

(** A batting frame that uses a synonym of AVG. *)
Definition batting_4 : DataFrame :=
  mkFrame ["#"; "Athlete Name"; "BA"; "AB"; "H"]
    [ [Some "1"; Some "Ann Roe"; Some ".310"; Some "29"; Some "9"] ].

(** The batting table the merger builds from [batting_1] and [batting_2]
    for the team below. *)
Definition riders : TeamInfo := mkTeam "Riders" "/riders" "Camden, DE".

Definition merged_batting : DataFrame :=
  mkFrame ["#"; "ATHLETE NAME"; "AVG"; "AB"; "H"; "R"; "TEAM"; "CITY_STATE";
           "STATS_URL"]
    [ [Some "1"; Some "Ann Roe"; Some ".310"; Some "29"; None; None;
       Some "Riders"; Some "Camden, DE"; Some "/riders"];
      [Some "2"; Some "Bea Poe"; Some ".275"; Some "40"; Some "11"; Some "6";
       Some "Riders"; Some "Camden, DE"; Some "/riders"];
      [Some "3"; Some "Cat Doe"; None; None; Some "4"; Some "2";
       Some "Riders"; Some "Camden, DE"; Some "/riders"] ].

End Sample.

(** ** Further functions of the scraper *)

(** [_normalize_url] *)
Definition _normalize_url (url : string) : string :=
  let url :=
    if negb (PyStr.startswith "http://" url || PyStr.startswith "https://" url)
    then "https://www.maxpreps.com" +:+ url
    else url in
  PyStr.replace "http://" "https://" url.

(** [_identify_pitching_table_type], on the column labels of the frame. *)
Inductive pitching_kind : Type := basic | advanced | additional.

Definition _identify_pitching_table_type (cols : list string) : option pitching_kind :=
  let columns_set : gset string := list_to_set (strip_upper <$> cols) in
  if bool_decide (pitching_basic ⊆ columns_set) then Some basic
  else if bool_decide (pitching_advanced ⊆ columns_set) then Some advanced
  else if bool_decide (pitching_additional ⊆ columns_set) then Some additional
  else None.

(** A row of the lookup table: the state abbreviation, the team, and what
    the network returns when the team is processed. *)
Record LookupRow : Type := mkLookupRow {
  abbr : string;
  team : TeamInfo;
  fetched : Fetched
}.

Definition header_line : string :=
  "team_name,stats_url,reason,tables_found" +:+ newline.

Section process_state_teams.

Variable str_of_exn : exn → string.

(** [process_state_teams]: the files of the state are started afresh (the
    teams-without-stats file with its header line, the statistics files
    removed), then the teams of the state are processed in the order of the
    lookup table.  [None] stands for a lookup table that cannot be read:
    the exception is logged and nothing more happens. *)
Definition process_state_teams (lookup : option (list LookupRow)) (state_abbr : string)
  : Sinks :=
  let state_abbr := PyStr.lower state_abbr in
  let start := mkSinks [header_line] [] in
  match lookup with
  | None => start
  | Some teams_df =>
      let state_teams := filter (λ r, abbr r = state_abbr) teams_df in
      if bool_decide (length state_teams = 0) then start
      else foldl (λ s r, process_team str_of_exn (team r) (fetched r) s)
             start state_teams
  end.

End process_state_teams.

(** A frame has exactly one column for each join key. *)
Definition unique_key_columns (df : DataFrame) : Prop :=
  ∀ k, k ∈ key_columns → length (positions (columns df) k) = 1.

(** The frames [process_team] hands to the merger. *)
Definition extracted_frames (tables : list Table) : list DataFrame :=
  filter (λ df, df_empty df = false) (_extract_table_data <$> tables).

(** Every row of a frame holds the three values of a team. *)
Definition carries_team (info : TeamInfo) (df : DataFrame) : Prop :=
  ∀ row, row ∈ rows df →
    carries df row "TEAM" (school info)
    ∧ carries df row "CITY_STATE" (city_state info)
    ∧ carries df row "STATS_URL" (stats_url info).

(** The indicators of the eight sets of the classifier. *)
Definition all_indicators : list string :=
  [ "ERA"; "W"; "L"; "W%"; "APP"; "IP"; "H"; "R"; "ER"; "BB"; "SO";
    "OBA"; "WP"; "HBP"; "BK"; "AVG"; "AB"; "RBI";
    "2B"; "3B"; "HR"; "K"; "SF"; "SH"; "ROE"; "FC"; "LOB"; "OBP"; "SLG"; "OPS";
    "FPCT"; "TC"; "FLD%"; "PO"; "A"; "E"; "DP"; "SB"; "CS"; "SBA" ].

(** A page with seven tables: two batting tables, the second without the
    label "Athlete Name", and five tables without rows. *)
Definition sample_page : list Table :=
  [ [["#"; "Athlete Name"; "AVG"; "AB"]; ["1"; "Ann Roe"; ".310"; "29"]];
    [["#"; "Name"; "2B"; "3B"]; ["2"; "Bea Poe"; "1"; "0"]];
    []; []; []; []; [] ].

(** A page with seven tables, two of them batting tables with both join
    keys, and lookup tables that list its team under a lower-case and under
    an upper-case abbreviation. *)
Definition sample_page_ok : list Table :=
  [ [["#"; "Athlete Name"; "AVG"; "AB"];
     ["1"; "Ann Roe"; ".310"; "29"]; ["2"; "Bea Poe"; ".275"; "40"]];
    [["#"; "Athlete Name"; "H"; "R"];
     ["2"; "Bea Poe"; "11"; "6"]; ["3"; "Cat Doe"; "4"; "2"]];
    []; []; []; []; [] ].

Definition sample_lookup : list LookupRow :=
  [ mkLookupRow "pa" (mkTeam "Lions" "/lions" "Erie, PA") NotFound;
    mkLookupRow "de" Sample.riders (Page sample_page_ok) ].

Definition sample_lookup_upper : list LookupRow :=
  [ mkLookupRow "DE" Sample.riders (Page sample_page_ok) ].

(** The replacement [_normalize_url] makes, and the step of the loop of
    [process_state_teams]. *)
Definition replace_http (s : string) : string :=
  PyStr.replace_from "http://" "https://" 0 s.

Definition run_step (str_of_exn : exn → string) (s : Sinks) (r : LookupRow) : Sinks :=
  process_team str_of_exn (team r) (fetched r) s.

(** * Properties *)

(** ** Strings *)

Section strings.
Import PyStr.

Lemma upper_char_idem c : upper_char (upper_char c) = upper_char c.
Proof. destruct c as [[] [] [] [] [] [] [] []]; reflexivity. Qed.

Lemma is_space_upper_char c : is_space (upper_char c) = is_space c.
Proof. destruct c as [[] [] [] [] [] [] [] []]; reflexivity. Qed.

Lemma upper_idem s : upper (upper s) = upper s.
Proof. induction s as [|c s IH]; simpl; [done|]. by rewrite upper_char_idem, IH. Qed.

Lemma lstrip_upper s : lstrip (upper s) = upper (lstrip s).
Proof.
  induction s as [|c s IH]; simpl; [done|].
  rewrite is_space_upper_char. by destruct (is_space c).
Qed.

Lemma rstrip_upper s : rstrip (upper s) = upper (rstrip s).
Proof.
  induction s as [|c s IH]; simpl; [done|].
  rewrite IH, is_space_upper_char.
  destruct (rstrip s); simpl; [by destruct (is_space c)|done].
Qed.

Lemma strip_upper_comm s : strip (upper s) = upper (strip s).
Proof. unfold strip. by rewrite lstrip_upper, rstrip_upper. Qed.

Lemma lstrip_no_lead s : no_lead (lstrip s).
Proof.
  induction s as [|c s IH]; simpl; [done|].
  destruct (is_space c) eqn:E; [done|]. exact E.
Qed.

Lemma lstrip_id s : no_lead s → lstrip s = s.
Proof. destruct s as [|c s]; simpl; [done|]. by intros ->. Qed.

Lemma rstrip_no_lead s : no_lead s → no_lead (rstrip s).
Proof.
  destruct s as [|c s]; simpl; [done|]. intros Hc.
  destruct (rstrip s); simpl; [by rewrite Hc|done].
Qed.

Lemma rstrip_idem s : rstrip (rstrip s) = rstrip s.
Proof.
  induction s as [|c s IH]; simpl; [done|].
  destruct (rstrip s) as [|d t] eqn:E.
  - destruct (is_space c) eqn:Ec; simpl; [done|]. by rewrite Ec.
  - change (rstrip (String c (String d t))) with
      (match rstrip (String d t) with
       | EmptyString => if is_space c then EmptyString else String c EmptyString
       | u => String c u
       end).
    by rewrite IH.
Qed.

Lemma strip_idem s : strip (strip s) = strip s.
Proof.
  unfold strip.
  rewrite (lstrip_id (rstrip (lstrip s))) by apply rstrip_no_lead, lstrip_no_lead.
  apply rstrip_idem.
Qed.

Lemma strip_upper_idem s : strip_upper (strip_upper s) = strip_upper s.
Proof.
  unfold strip_upper.
  by rewrite strip_upper_comm, strip_idem, upper_idem.
Qed.

End strings.

(** ** Header normalizer *)

Lemma header_map_lookup k v :
  header_map !! k = Some v → (k, v) ∈ header_map_items.
Proof. apply elem_of_list_to_map_2. Qed.

Lemma header_map_values_fixed :
  Forall (λ kv, normalize_header kv.2 = kv.2) header_map_items.
Proof. unfold header_map_items. repeat constructor. Qed.

(** C5: header normalization is idempotent: normalizing a normalized header
    returns it unchanged, for one header and for a list of headers; in
    particular every canonical abbreviation of the synonym table is
    normalized to itself. *)
Theorem normalize_idempotent :
  (∀ h, normalize_header (normalize_header h) = normalize_header h)
  ∧ (∀ headers, _normalize_headers (_normalize_headers headers)
                = _normalize_headers headers)
  ∧ (∀ raw canonical, header_map !! raw = Some canonical →
                      normalize_header canonical = canonical).
Proof.
  assert (Hval : ∀ k v, header_map !! k = Some v → normalize_header v = v).
  { intros k v Hkv. apply header_map_lookup in Hkv.
    pose proof header_map_values_fixed as HF.
    rewrite Forall_forall in HF. exact (HF _ Hkv). }
  assert (Hone : ∀ h, normalize_header (normalize_header h) = normalize_header h).
  { intros h. unfold normalize_header at 2 3.
    destruct (header_map !! strip_upper h) as [v|] eqn:E; simpl.
    - eapply Hval, E.
    - unfold normalize_header. by rewrite strip_upper_idem, E. }
  split; [exact Hone|]. split; [|exact Hval].
  intros headers. unfold _normalize_headers.
  rewrite <- list_fmap_compose. apply list_fmap_ext.
  intros i h _. apply Hone.
Qed.

Lemma normalize_idempotent_witness :
  header_map !! "BA" = Some "AVG" ∧ normalize_header "AVG" = "AVG".
Proof.
  split; [reflexivity|].
  apply (proj2 (proj2 normalize_idempotent) "BA" "AVG"). reflexivity.
Defined.

(** ** Table classifier *)

Section counting.
Context (X : gset string).

Lemma size_inter_list (l : list string) :
  NoDup l → size (list_to_set l ∩ X) = length (filter (λ x, x ∈ X) l).
Proof.
  induction 1 as [|a l Ha Hl IH]; simpl.
  - by rewrite intersection_empty_l_L, size_empty.
  - replace (({[a]} ∪ list_to_set l) ∩ X)
      with (({[a]} ∩ X) ∪ (list_to_set l ∩ X)) by set_solver.
    rewrite size_union by set_solver. rewrite IH.
    rewrite filter_cons. destruct (decide (a ∈ X)) as [Hin|Hout]; simpl.
    + replace ({[a]} ∩ X) with ({[a]} : gset string) by set_solver.
      by rewrite size_singleton.
    + replace ({[a]} ∩ X) with (∅ : gset string) by set_solver.
      by rewrite size_empty.
Qed.
End counting.

Lemma count_inter (l headers : list string) :
  NoDup l →
  size (list_to_set l ∩ (list_to_set (strip_upper <$> headers) : gset string))
  = Spec.count_present l headers.
Proof.
  intros Hl. rewrite size_inter_list by done. unfold Spec.count_present.
  f_equal. apply list_filter_iff. intros x. apply elem_of_list_to_set.
Qed.

Lemma any_in_list (l headers : list string) :
  any_in (list_to_set l) headers
  = (1 <=? length (filter (λ x, x ∈ headers) l))%nat.
Proof.
  unfold any_in.
  destruct (1 <=? length (filter (λ x, x ∈ headers) l))%nat eqn:E.
  - apply Nat.leb_le in E. apply bool_decide_eq_true.
    destruct (filter (λ x, x ∈ headers) l) as [|x l'] eqn:F; [simpl in E; lia|].
    assert (Hx : x ∈ filter (λ x, x ∈ headers) l) by (rewrite F; left).
    apply list_elem_of_filter in Hx as [Hx1 Hx2].
    exists x. split; [by apply elem_of_list_to_set|done].
  - apply Nat.leb_gt in E. apply bool_decide_eq_false.
    intros (x & Hx1 & Hx2). apply elem_of_list_to_set in Hx1.
    assert (Hx : x ∈ filter (λ x, x ∈ headers) l) by (by apply list_elem_of_filter).
    destruct (filter (λ x, x ∈ headers) l); [by apply elem_of_nil in Hx|simpl in E; lia].
Qed.

(** The classifier computes the ordered first-match rule of the
    specification. *)
Lemma determine_table_type_spec headers :
  _determine_table_type headers = Spec.classify headers.
Proof.
  unfold _determine_table_type, Spec.classify, Spec.rules, Spec.first_match,
    Spec.is_pitching, Spec.is_fielding, Spec.is_baserunning, Spec.is_batting,
    Spec.at_least.
  change pitching_basic with (list_to_set ["ERA"; "W"; "L"; "W%"; "APP"] : gset string).
  change pitching_advanced
    with (list_to_set ["IP"; "H"; "R"; "ER"; "BB"; "SO"] : gset string).
  change pitching_additional with (list_to_set ["OBA"; "WP"; "HBP"; "BK"] : gset string).
  change batting_required with (list_to_set ["AVG"; "AB"; "H"; "R"; "RBI"] : gset string).
  change batting_additional
    with (list_to_set ["2B"; "3B"; "HR"; "BB"; "K"; "HBP"; "SF"; "SH"; "ROE"; "FC";
                       "LOB"; "OBP"; "SLG"; "OPS"] : gset string).
  change fielding_required with (list_to_set ["FPCT"; "TC"; "FLD%"] : gset string).
  change fielding_additional with (list_to_set ["PO"; "A"; "E"; "DP"] : gset string).
  change baserunning_required with (list_to_set ["SB"; "CS"; "SBA"] : gset string).
  rewrite !any_in_list.
  rewrite !count_inter by (apply (bool_decide_unpack _); by vm_compute).
  fold (Spec.count_present ["FPCT"; "TC"; "FLD%"] headers).
  fold (Spec.count_present ["PO"; "A"; "E"; "DP"] headers).
  fold (Spec.count_present ["SB"; "CS"; "SBA"] headers).
  case_bool_decide as Hnil; [|done].
  apply fmap_nil_inv in Hnil. subst headers. reflexivity.
Qed.

(** C1: the classifier evaluates the predicates for pitching, fielding,
    baserunning and batting in that order on the trimmed, uppercased
    headers and returns the first category whose predicate holds, [None]
    when no predicate holds; each predicate counts the indicators of its
    sets that are present, with the thresholds 3, 3, 2 (pitching), 1 and 1
    (fielding), 1 (baserunning), 2 or 2 (batting).  Headers whose set is
    ERA, W, L, IP, H, R, ER, BB, SO are classified as pitching, hence not as
    batting. *)
Theorem determine_table_type_first_match :
  (∀ headers,
     _determine_table_type headers
     = if Spec.is_pitching headers then Some pitching
       else if Spec.is_fielding headers then Some fielding
       else if Spec.is_baserunning headers then Some baserunning
       else if Spec.is_batting headers then Some batting
       else None)
  ∧ (∀ headers,
       list_to_set (strip_upper <$> headers)
       = ({[ "ERA"; "W"; "L"; "IP"; "H"; "R"; "ER"; "BB"; "SO" ]} : gset string) →
       _determine_table_type headers = Some pitching
       ∧ _determine_table_type headers ≠ Some batting).
Proof.
  split.
  - intros headers. by rewrite determine_table_type_spec.
  - intros headers Hset.
    assert (Hp : Spec.is_pitching headers = true).
    { unfold Spec.is_pitching, Spec.at_least.
      rewrite <- !count_inter by (apply (bool_decide_unpack _); by vm_compute).
      rewrite Hset. by vm_compute. }
    rewrite determine_table_type_spec.
    unfold Spec.classify, Spec.rules, Spec.first_match. rewrite Hp. done.
Qed.

Lemma determine_table_type_first_match_witness :
  _determine_table_type ["so"; " ERA"; "W"; "L"; "IP "; "H"; "R"; "ER"; "BB"; "W"]
  = Some pitching.
Proof.
  apply (proj2 determine_table_type_first_match
           ["so"; " ERA"; "W"; "L"; "IP "; "H"; "R"; "ER"; "BB"; "W"]).
  by vm_compute.
Defined.

(** The classifications of the sample header rows of the specification. *)
Example classify_samples :
  _determine_table_type ["AVG"; "AB"; "H"; "R"; "RBI"; "HR"] = Some batting
  ∧ _determine_table_type ["FPCT"; "PO"; "A"; "E"] = Some fielding
  ∧ _determine_table_type ["SB"; "CS"] = Some baserunning
  ∧ _determine_table_type ["X"; "Y"; "Z"] = None
  ∧ _determine_table_type [] = None.
Proof. by vm_compute. Qed.

(** C4: the classification depends on the headers only through their set:
    a permutation of a header sequence is classified like the sequence. *)
Theorem determine_table_type_permutation (headers headers' : list string) :
  headers ≡ₚ headers' →
  _determine_table_type headers' = _determine_table_type headers.
Proof.
  intros Hp. rewrite !determine_table_type_spec.
  assert (Hc : ∀ l, Spec.count_present l headers' = Spec.count_present l headers).
  { intros l. unfold Spec.count_present. f_equal.
    apply list_filter_iff. intros x. by rewrite Hp. }
  unfold Spec.classify, Spec.rules, Spec.first_match, Spec.is_pitching,
    Spec.is_fielding, Spec.is_baserunning, Spec.is_batting, Spec.at_least.
  by rewrite !Hc.
Qed.

Lemma determine_table_type_permutation_witness :
  _determine_table_type ["SB"; "GP"; "CS"] = _determine_table_type ["GP"; "CS"; "SB"].
Proof.
  apply (determine_table_type_permutation ["GP"; "CS"; "SB"] ["SB"; "GP"; "CS"]).
  etrans; [apply perm_skip, perm_swap|]. apply perm_swap.
Defined.

(** ** Row extraction *)

Section substrings.
Import PyStr.

Lemma startswith_spec p s :
  startswith p s = true ↔ ∃ post, s = p +:+ post.
Proof.
  revert s. induction p as [|a p IH]; intros s; simpl.
  - split; [intros _; by exists s|done].
  - destruct s as [|b s].
    + split; [done|]. by intros [post ?].
    + destruct (Ascii.eqb a b) eqn:E.
      * apply Ascii.eqb_eq in E as ->. rewrite IH.
        split; intros [post Hp]; exists post; [by rewrite Hp|by injection Hp].
      * apply Ascii.eqb_neq in E. split; [done|].
        intros [post Hp]. injection Hp as ? ?. congruence.
Qed.

Lemma contains_spec p s :
  contains p s = true ↔ ∃ pre post, s = pre +:+ p +:+ post.
Proof.
  induction s as [|c s IH]; simpl.
  - rewrite orb_false_r, startswith_spec. split.
    + intros [post Hp]. by exists EmptyString, post.
    + intros (pre & post & Hp). exists post.
      destruct pre; [done|discriminate].
  - rewrite orb_true_iff, startswith_spec, IH. split.
    + intros [[post Hp]|(pre & post & Hp)].
      * by exists EmptyString, post.
      * exists (String c pre), post. simpl. by rewrite Hp.
    + intros (pre & post & Hp). destruct pre as [|d pre]; simpl in Hp.
      * left. by exists post.
      * right. injection Hp as _ Hp. by exists pre, post.
Qed.

End substrings.

Lemma keeps_row_spec row_data :
  keeps_row row_data = true ↔
  2 ≤ length row_data ∧ ∃ name, row_data !! 1 = Some name ∧ ¬ is_summary_name name.
Proof.
  unfold keeps_row. rewrite !andb_true_iff, bool_decide_eq_true, Nat.ltb_lt.
  split.
  - intros [[_ Hlen] Hname]. split; [lia|].
    destruct (row_data !! 1) as [name|]; [|done].
    exists name. split; [done|]. intros (word & pre & post & Hw & Hl).
    apply negb_true_iff in Hname.
    assert (Hex : existsb (λ x, PyStr.contains x (PyStr.lower name))
                    ["season"; "totals"] = true); [|congruence].
    apply existsb_exists. exists word. split; [by apply list_elem_of_In|].
    apply contains_spec. eauto.
  - intros [Hlen (name & Hn & Hs)]. rewrite Hn. split.
    + split; [|lia]. by destruct row_data.
    + apply negb_true_iff, not_true_iff_false. intros Hex.
      apply existsb_exists in Hex as (word & Hw & Hc).
      apply contains_spec in Hc as (pre & post & Hc).
      apply Hs. exists word, pre, post. split; [by apply list_elem_of_In|done].
Qed.

(** Every row of an extracted frame is a kept data row of the table, filled
    up to the number of headers. *)
Lemma extract_rows_origin table row :
  row ∈ rows (_extract_table_data table) →
  ∃ row_data,
    row_data ∈ tail table ∧ keeps_row row_data = true
    ∧ row = pad_row (length (columns (_extract_table_data table))) row_data.
Proof.
  unfold _extract_table_data.
  set (headers := match table with header_row :: _ => header_row | [] => [] end).
  set (data := filter (λ row_data, keeps_row row_data = true) (tail table)).
  destruct (bool_decide (headers ≠ []) && bool_decide (data ≠ []));
    [|by intros ?%elem_of_nil].
  unfold make_frame. case_bool_decide; [by intros ?%elem_of_nil|].
  case_bool_decide as Hk; [|by intros ?%elem_of_nil]. simpl.
  rewrite Hk. intros (row_data & -> & Hin)%list_elem_of_fmap.
  apply list_elem_of_filter in Hin as [Hkeep Hin]. eauto.
Qed.



(** C9: a data row with fewer than two cells is dropped, also when it is not
    empty: the filter rejects it, and every row of an extracted frame comes
    from a data row with at least two cells that the filter kept, so its
    first two cells are present. *)
Theorem extract_drops_short_rows :
  (∀ row_data, length row_data < 2 → keeps_row row_data = false)
  ∧ (∀ table row,
       row ∈ rows (_extract_table_data table) →
       ∃ row_data,
         row_data ∈ tail table ∧ 2 ≤ length row_data ∧ keeps_row row_data = true
         ∧ row = pad_row (length (columns (_extract_table_data table))) row_data)
  ∧ rows (_extract_table_data [["#"; "Athlete Name"]; ["7"]; ["8"; "Bo Lee"]])
    = [[Some "8"; Some "Bo Lee"]].
Proof.
  split; [|split; [|reflexivity]].
  - intros row_data Hlen. apply not_true_iff_false.
    intros [? _]%keeps_row_spec. lia.
  - intros table row (row_data & Hin & Hkeep & ->)%extract_rows_origin.
    exists row_data. split_and!; try done.
    by apply keeps_row_spec in Hkeep as [? _].
Qed.

Lemma extract_drops_short_rows_witness :
  keeps_row ["7"] = false
  ∧ ∃ row_data,
      row_data ∈ [["7"]; ["8"; "Bo Lee"]] ∧ 2 ≤ length row_data
      ∧ keeps_row row_data = true ∧ [Some "8"; Some "Bo Lee"] = pad_row 2 row_data.
Proof.
  split.
  - apply (proj1 extract_drops_short_rows). simpl. lia.
  - apply (proj1 (proj2 extract_drops_short_rows)
             [["#"; "Athlete Name"]; ["7"]; ["8"; "Bo Lee"]]).
    vm_compute. left.
Defined.

(** ** Per-team orchestration *)

(** C8: a page with at least one and fewer than seven tables appends
    nothing to the statistics files and appends exactly one line to the
    teams-without-stats file, made of the team name, its URL, the reason
    "Insufficient tables" and the number of tables; with five tables the
    count in the line is 5. *)
Theorem process_team_insufficient_tables
    (str_of_exn : exn → string) (team_info : TeamInfo) (tables : list Table)
    (s : Sinks) :
  1 ≤ length tables → length tables < 7 →
  let s' := process_team str_of_exn team_info (Page tables) s in
  stats_files s' = stats_files s
  ∧ teams_without_stats s'
    = teams_without_stats s
      ++ [school team_info +:+ "," +:+ stats_url team_info +:+ ","
            +:+ "Insufficient tables" +:+ "," +:+ pretty (length tables) +:+ newline]
  ∧ (length tables = 5 → pretty (length tables) = "5").
Proof.
  intros Hlo Hhi. simpl. unfold process_team.
  case_bool_decide as Hnil; [subst tables; simpl in Hlo; lia|].
  apply Nat.ltb_lt in Hhi. rewrite Hhi. simpl.
  split_and!; [done|done|]. by intros ->.
Qed.

Lemma process_team_insufficient_tables_witness :
  stats_files (process_team (λ _, "") Sample.riders (Page [[]; []; []; []; []])
                 (mkSinks [] []))
  = []
  ∧ teams_without_stats
      (process_team (λ _, "") Sample.riders (Page [[]; []; []; []; []])
         (mkSinks [] []))
    = ["Riders,/riders,Insufficient tables,5" +:+ newline].
Proof.
  pose proof (process_team_insufficient_tables (λ _, "") Sample.riders
                [[]; []; []; []; []] (mkSinks [] [])) as H.
  simpl in H. destruct H as (H1 & H2 & _); [lia|lia|].
  split; [exact H1|exact H2].
Defined.

(** ** Category merger: grouping *)

Lemma append_to_group_of t df (f : table_type → list DataFrame) (ts : list table_type) :
  append_to_group t df ((λ t', (t', f t')) <$> ts)
  = (λ t', (t', if bool_decide (t' = t) then f t' ++ [df] else f t')) <$> ts.
Proof.
  unfold append_to_group. rewrite <- list_fmap_compose.
  apply list_fmap_ext. intros i t' _. simpl. by case_bool_decide.
Qed.

(** The grouping loop yields, for the four types in dict order, the
    relabelled frames the classifier assigns to the type. *)
Lemma group_tables_eq tables :
  group_tables tables
  = (λ t, (t, group_of t tables)) <$> [batting; pitching; fielding; baserunning].
Proof.
  unfold group_tables.
  change table_groups_init
    with ((λ t, (t, @nil DataFrame)) <$> [batting; pitching; fielding; baserunning]).
  generalize [batting; pitching; fielding; baserunning]. intros ts.
  induction tables as [|df tables IH] using rev_ind.
  - reflexivity.
  - rewrite foldl_snoc, IH. clear IH.
    assert (Hg : ∀ t, group_of t (tables ++ [df])
                 = group_of t tables
                   ++ (if bool_decide (df_empty df = false
                                       ∧ _determine_table_type (columns df) = Some t)
                       then [normalize_columns df] else [])).
    { intros t. unfold group_of. rewrite filter_app, fmap_app. f_equal.
      rewrite filter_cons, filter_nil. case_bool_decide; by case_decide. }
    destruct (df_empty df) eqn:E; cbn [negb].
    + apply list_fmap_ext. intros i t _. rewrite Hg.
      rewrite bool_decide_eq_false_2 by naive_solver. by rewrite app_nil_r.
    + destruct (_determine_table_type (columns df)) as [t0|] eqn:Et.
      * rewrite append_to_group_of. apply list_fmap_ext. intros i t _.
        rewrite Hg. f_equal. case_bool_decide as H1.
        -- subst t0. by rewrite bool_decide_eq_true_2.
        -- rewrite bool_decide_eq_false_2 by naive_solver. by rewrite app_nil_r.
      * apply list_fmap_ext. intros i t _. rewrite Hg.
        rewrite bool_decide_eq_false_2 by naive_solver. by rewrite app_nil_r.
Qed.

Lemma group_tables_elem t dfs tables :
  (t, dfs) ∈ group_tables tables → dfs = group_of t tables.
Proof.
  rewrite group_tables_eq. intros (t' & [= -> ->] & _)%list_elem_of_fmap. done.
Qed.

Lemma group_of_elem t tables d :
  d ∈ group_of t tables →
  ∃ d0, d0 ∈ tables ∧ d = normalize_columns d0 ∧ df_empty d0 = false
        ∧ _determine_table_type (columns d0) = Some t.
Proof.
  unfold group_of. intros (d0 & -> & Hd)%list_elem_of_fmap.
  apply list_elem_of_filter in Hd as [[? ?] ?]. eauto.
Qed.

(** No indicator is a join-key label, so a classified frame has a column
    besides the keys. *)
Lemma count_present_keys_only l headers :
  Forall (λ x, x ∉ key_columns) l →
  Forall (λ h, h ∈ key_columns) (strip_upper <$> headers) →
  Spec.count_present l headers = 0.
Proof.
  intros Hl Hh. unfold Spec.count_present.
  replace (filter (λ x, x ∈ strip_upper <$> headers) l) with (@nil string); [done|].
  symmetry. induction Hl as [|x l Hx Hl IH]; [done|].
  rewrite filter_cons_False; [apply IH|].
  intros Hin. rewrite Forall_forall in Hh. by apply Hx, Hh.
Qed.

Lemma classified_has_value_column cols t :
  _determine_table_type cols = Some t →
  has_value_column (mkFrame (strip_upper <$> cols) []).
Proof.
  intros Hc Hnil. unfold has_value_column in Hnil. simpl in Hnil.
  assert (Hall : Forall (λ h, h ∈ key_columns) (strip_upper <$> cols)).
  { apply Forall_forall. intros h Hh.
    destruct (decide (h ∈ key_columns)) as [|Hn]; [done|].
    exfalso. by eapply (filter_nil_not_elem_of _ _ h Hnil). }
  rewrite determine_table_type_spec in Hc.
  unfold Spec.classify, Spec.rules, Spec.first_match, Spec.is_pitching,
    Spec.is_fielding, Spec.is_baserunning, Spec.is_batting, Spec.at_least in Hc.
  rewrite !count_present_keys_only in Hc;
    try done; apply (bool_decide_unpack _); by vm_compute.
Qed.

Lemma group_member_has_value_column t tables d :
  d ∈ group_of t tables → has_value_column d.
Proof.
  intros (d0 & _ & -> & _ & Hc)%group_of_elem.
  apply classified_has_value_column in Hc. exact Hc.
Qed.

(** ** Category merger: join keys *)

Lemma elem_of_positions cols label i :
  i ∈ positions cols label ↔ cols !! i = Some label.
Proof.
  unfold positions. rewrite list_elem_of_filter, elem_of_seq. split; [by intros [? _]|].
  intros Hl. split; [done|]. apply lookup_lt_Some in Hl. lia.
Qed.

Lemma NoDup_positions cols label : NoDup (positions cols label).
Proof. apply NoDup_filter, NoDup_seq. Qed.

Lemma filter_ext_elem {A} (P Q : A → Prop) `{∀ x, Decision (P x)}
    `{∀ x, Decision (Q x)} (l : list A) :
  (∀ x, x ∈ l → P x ↔ Q x) → filter P l = filter Q l.
Proof.
  induction l as [|x l IH]; intros HPQ; [done|].
  rewrite !filter_cons.
  assert (Hx : P x ↔ Q x) by (apply HPQ; left).
  rewrite IH by (intros y Hy; apply HPQ; by right).
  destruct (decide (P x)), (decide (Q x)); tauto || done.
Qed.

Lemma positions_app cols1 cols2 label :
  positions (cols1 ++ cols2) label
  = positions cols1 label ++ ((λ i, length cols1 + i) <$> positions cols2 label).
Proof.
  unfold positions. rewrite length_app, seq_app, filter_app. f_equal.
  - apply filter_ext_elem. intros i [_ Hi]%elem_of_seq.
    by rewrite lookup_app_l by lia.
  - replace (seq (0 + length cols1) (length cols2))
      with (Nat.add (length cols1) <$> seq 0 (length cols2))
      by (rewrite fmap_add_seq; f_equal; lia).
    generalize (seq 0 (length cols2)). intros l.
    induction l as [|i l IH]; [done|].
    rewrite fmap_cons, !filter_cons, lookup_app_r by lia.
    replace (length cols1 + i - length cols1) with i by lia.
    case_decide; rewrite IH; done.
Qed.

Lemma positions_singleton cols label i :
  cols !! i = Some label →
  (∀ j, cols !! j = Some label → j = i) →
  positions cols label = [i].
Proof.
  intros Hi Huniq. pose proof (NoDup_positions cols label) as Hnd.
  apply elem_of_positions in Hi.
  assert (Hall : ∀ j, j ∈ positions cols label → j = i).
  { intros j Hj. by apply Huniq, elem_of_positions. }
  destruct (positions cols label) as [|a l]; [by apply elem_of_nil in Hi|].
  assert (a = i) as -> by (apply Hall; left).
  destruct l as [|b l]; [done|].
  assert (b = i) as -> by (apply Hall; right; left).
  apply NoDup_cons in Hnd as [Hnd _]. exfalso. apply Hnd. left.
Qed.

Lemma positions_nil cols label : positions cols label = [] → label ∉ cols.
Proof.
  intros Hnil (i & Hi)%list_elem_of_lookup.
  apply elem_of_positions in Hi. rewrite Hnil in Hi. by apply elem_of_nil in Hi.
Qed.

Lemma check_key_ok df k i :
  Pandas.check_key df k = Ok i → positions (columns df) k = [i].
Proof.
  unfold Pandas.check_key.
  destruct (positions (columns df) k) as [|j [|? ?]]; [done| |done].
  by intros [= ->].
Qed.

Lemma check_key_lookup df k i :
  Pandas.check_key df k = Ok i → columns df !! i = Some k.
Proof.
  intros H%check_key_ok. apply elem_of_positions. rewrite H. left.
Qed.

Lemma key_positions_ok left right on ps :
  Pandas.key_positions left right on = Ok ps →
  Forall2 (λ k p, Pandas.check_key left k = Ok p.1
                  ∧ Pandas.check_key right k = Ok p.2) on ps.
Proof.
  revert ps. induction on as [|k on IH]; intros ps; simpl.
  - intros [= <-]. constructor.
  - destruct (Pandas.check_key right k) as [j|] eqn:Er; [|done]. simpl.
    destruct (Pandas.check_key left k) as [i|] eqn:El; [|done]. simpl.
    destruct (Pandas.key_positions left right on) as [ps'|]; [|done]. simpl.
    intros [= <-]. constructor; [done|]. by apply IH.
Qed.

Lemma df_select_ok df labels r :
  df_select df labels = Ok r →
  (∀ l, l ∈ labels → l ∈ columns df)
  ∧ r = mkFrame ((λ i, default "" (columns df !! i)) <$> (labels ≫= positions (columns df)))
          ((λ row, cell_at row <$> (labels ≫= positions (columns df))) <$> rows df).
Proof.
  unfold df_select. case_bool_decide as Hm; [done|]. intros [= <-].
  split; [|done]. intros l Hl.
  destruct (decide (l ∈ columns df)) as [|Hn]; [done|]. exfalso.
  by eapply (filter_nil_not_elem_of _ _ l Hm).
Qed.

Lemma merge_step_ok_keys acc d m :
  has_value_column d → merge_step acc d = Ok m →
  has_key_columns acc ∧ has_key_columns d.
Proof.
  intros Hv. unfold merge_step. rewrite bool_decide_eq_true_2 by exact Hv.
  destruct (df_select d _) as [right|] eqn:Es; [|done]. simpl.
  apply df_select_ok in Es as [Hd _].
  unfold Pandas.merge_outer.
  destruct (Pandas.key_positions acc right key_columns) as [ps|] eqn:Ek; [|done].
  intros _. apply key_positions_ok in Ek. split.
  - intros k Hk. apply list_elem_of_lookup in Hk as [n Hn].
    destruct (Forall2_lookup_l _ _ _ _ _ Ek Hn) as (p & _ & Hl & _).
    apply check_key_lookup in Hl. by eapply list_elem_of_lookup_2.
  - intros k Hk. apply Hd. apply elem_of_app. by left.
Qed.

Lemma merge_all_ok_keys acc dfs m :
  Forall has_value_column dfs → merge_all acc dfs = Ok m →
  Forall has_key_columns dfs ∧ (dfs ≠ [] → has_key_columns acc).
Proof.
  intros Hv. revert acc. induction Hv as [|d dfs Hd Hv IH]; intros acc; simpl.
  - done.
  - destruct (merge_step acc d) as [m1|] eqn:Es; [|done]. simpl.
    intros Hm. apply merge_step_ok_keys in Es as [? ?]; [|done].
    apply IH in Hm as [? _]. split; [by constructor|done].
Qed.

Lemma merge_groups_err groups t dfs team_name team_url city_state :
  (t, dfs) ∈ groups →
  is_err (merge_group dfs team_name team_url city_state) →
  is_err (merge_groups groups team_name team_url city_state).
Proof.
  intros Hin [e He]. induction groups as [|[t' dfs'] groups IH]; [by apply elem_of_nil in Hin|].
  simpl. apply elem_of_cons in Hin as [[= <- <-]|Hin].
  - rewrite He. by exists e.
  - destruct (merge_group dfs' _ _ _) as [o|e']; [|by exists e']. simpl.
    destruct (IH Hin) as [e'' ->]. by exists e''.
Qed.

(** C10: merging a group of two or more frames needs both join-key columns
    (after trimming and uppercasing) in every frame of the group, the base
    included: when a frame of such a group lacks "#" or "ATHLETE NAME", the
    merger returns no merged tables but raises. *)
Theorem merge_requires_key_columns
    (tables : list DataFrame) (team_name team_url city_state : string)
    (t : table_type) (dfs : list DataFrame) (df : DataFrame) :
  (t, dfs) ∈ group_tables tables →
  2 ≤ length dfs →
  df ∈ dfs →
  "#" ∉ columns df ∨ "ATHLETE NAME" ∉ columns df →
  is_err (_merge_tables_by_type tables team_name team_url city_state).
Proof.
  intros Hg Hlen Hdf Hlack. unfold _merge_tables_by_type.
  eapply merge_groups_err; [exact Hg|].
  assert (Hv : Forall has_value_column dfs).
  { apply group_tables_elem in Hg as ->. apply Forall_forall.
    intros d. apply group_member_has_value_column. }
  destruct dfs as [|first rest]; [simpl in Hlen; lia|]. simpl.
  destruct (merge_all first rest) as [m|e] eqn:Em; [|by exists e]. exfalso.
  apply Forall_cons in Hv as [_ Hv].
  apply merge_all_ok_keys in Em as [Hrest Hfirst]; [|done].
  assert (Hk : has_key_columns df).
  { apply elem_of_cons in Hdf as [->|Hdf].
    - apply Hfirst. destruct rest; [simpl in Hlen; lia|done].
    - rewrite Forall_forall in Hrest. by apply Hrest. }
  destruct Hlack as [Hl|Hl]; apply Hl, Hk; unfold key_columns; set_solver.
Qed.

Lemma merge_requires_key_columns_witness :
  is_err (_merge_tables_by_type [Sample.batting_1; Sample.batting_3]
            "Riders" "/riders" "Camden, DE").
Proof.
  apply (merge_requires_key_columns [Sample.batting_1; Sample.batting_3]
           "Riders" "/riders" "Camden, DE" batting
           [normalize_columns Sample.batting_1; normalize_columns Sample.batting_3]
           (normalize_columns Sample.batting_3)).
  - vm_compute. left.
  - simpl. lia.
  - right. left.
  - right. vm_compute. intros H.
    repeat (apply elem_of_cons in H as [H|H]; [discriminate H|]).
    by apply elem_of_nil in H.
Defined.

(** ** Category merger: shape of the frames *)

Lemma length_drop_positions_from {A B} n pos (l1 : list A) (l2 : list B) :
  length l1 = length l2 →
  length (Pandas.drop_positions_from n pos l1)
  = length (Pandas.drop_positions_from n pos l2).
Proof.
  revert n l2. induction l1 as [|x l1 IH]; intros n [|y l2] Hlen; try done.
  simpl in *. case_bool_decide; simpl; rewrite (IH (S n) l2); auto with lia.
Qed.

Lemma normalize_columns_wf df : wf_frame df → wf_frame (normalize_columns df).
Proof.
  unfold wf_frame, normalize_columns. simpl. by rewrite length_fmap.
Qed.

Lemma df_select_wf df labels r : df_select df labels = Ok r → wf_frame r.
Proof.
  intros [_ ->]%df_select_ok. unfold wf_frame. simpl.
  apply Forall_fmap, Forall_forall. intros row _. simpl. by rewrite !length_fmap.
Qed.

Lemma joined_rows_length lrows rrows (lcols rcols0 : list string) rpos lpos k row :
  Forall (λ r, length r = length lcols) lrows →
  Forall (λ r, length r = length rcols0) rrows →
  row ∈ Pandas.joined_rows lrows rrows (length lcols)
          (length (Pandas.drop_positions rpos rcols0)) lpos rpos k →
  length row = length lcols + length (Pandas.drop_positions rpos rcols0).
Proof.
  intros Hl Hr. unfold Pandas.joined_rows.
  set (ls := filter (λ row, Pandas.key_of lpos row = k) lrows).
  set (rs := filter (λ row, Pandas.key_of rpos row = k) rrows).
  assert (Hls : ∀ l, l ∈ ls → length l = length lcols).
  { intros l [_ Hin]%list_elem_of_filter. rewrite Forall_forall in Hl. auto. }
  assert (Hrs : ∀ r, r ∈ rs →
            length (Pandas.drop_positions rpos r)
            = length (Pandas.drop_positions rpos rcols0)).
  { intros r [_ Hin]%list_elem_of_filter. rewrite Forall_forall in Hr.
    apply length_drop_positions_from. auto. }
  clearbody ls rs. destruct ls as [|l0 ls].
  - intros (r & -> & Hin)%list_elem_of_fmap.
    rewrite length_app. unfold Pandas.left_part_of_key.
    rewrite length_fmap, length_seq. by rewrite Hrs.
  - destruct rs as [|r0 rs].
    + intros (l & -> & Hin)%list_elem_of_fmap.
      rewrite length_app, length_replicate. by rewrite Hls.
    + intros (l & Hin & Hl')%list_elem_of_bind.
      apply list_elem_of_bind in Hin as (r & Hin & Hr').
      apply list_elem_of_singleton in Hin as ->.
      rewrite length_app. by rewrite Hls, Hrs.
Qed.

Lemma merge_outer_wf left right on m :
  wf_frame left → wf_frame right →
  Pandas.merge_outer left right on = Ok m → wf_frame m.
Proof.
  intros Hl Hr. unfold Pandas.merge_outer.
  destruct (Pandas.key_positions left right on) as [ps|]; [|done]. simpl.
  case_bool_decide; [done|]. intros [= <-]. unfold wf_frame. simpl.
  apply Forall_forall. intros row (k & Hrow & _)%list_elem_of_bind.
  rewrite length_app, !length_fmap.
  by eapply joined_rows_length.
Qed.

Lemma merge_step_wf acc d m : wf_frame acc → merge_step acc d = Ok m → wf_frame m.
Proof.
  intros Hacc. unfold merge_step. case_bool_decide; [|by intros [= <-]].
  destruct (df_select d _) as [right|] eqn:Es; [|done]. simpl.
  apply merge_outer_wf; [done|]. by eapply df_select_wf.
Qed.

Lemma merge_all_wf acc dfs m : wf_frame acc → merge_all acc dfs = Ok m → wf_frame m.
Proof.
  revert acc. induction dfs as [|d dfs IH]; intros acc Hacc; simpl.
  - by intros [= <-].
  - destruct (merge_step acc d) as [m1|] eqn:Es; [|done]. simpl.
    apply IH. by eapply merge_step_wf.
Qed.

Lemma merge_groups_ok_elem groups team_name team_url city_state merged t df :
  merge_groups groups team_name team_url city_state = Ok merged →
  (t, df) ∈ merged →
  ∃ first rest m,
    (t, first :: rest) ∈ groups ∧ merge_all first rest = Ok m
    ∧ df = add_team_info team_name team_url city_state m.
Proof.
  revert merged. induction groups as [|[t' dfs] groups IH]; intros merged; simpl.
  - intros [= <-] Hin. by apply elem_of_nil in Hin.
  - destruct (merge_group dfs _ _ _) as [o|] eqn:Eg; [|done]. simpl.
    destruct (merge_groups groups _ _ _) as [merged'|]; [|done]. simpl.
    intros [= <-] Hin.
    assert (Hrest : (t, df) ∈ merged' →
              ∃ first rest m, (t, first :: rest) ∈ (t', dfs) :: groups
                ∧ merge_all first rest = Ok m
                ∧ df = add_team_info team_name team_url city_state m).
    { intros H. destruct (IH _ eq_refl H) as (f & r & m & ? & ? & ?).
      exists f, r, m. split_and!; try done. by right. }
    destruct o as [md|]; [|by apply Hrest].
    apply elem_of_cons in Hin as [[= -> ->]|Hin]; [|by apply Hrest].
    destruct dfs as [|first rest]; [done|]. simpl in Eg.
    destruct (merge_all first rest) as [m|] eqn:Em; [|done].
    injection Eg as <-. exists first, rest, m. split_and!; try done. left.
Qed.

(** ** Category merger: team information *)

Lemma set_column_wf name value df : wf_frame df → wf_frame (set_column name value df).
Proof.
  unfold wf_frame, set_column. intros Hwf.
  case_bool_decide; simpl; apply Forall_fmap; eapply Forall_impl; try exact Hwf;
    intros row Hrow; simpl in *.
  - by rewrite length_imap.
  - rewrite !length_app. simpl. lia.
Qed.

Lemma set_column_carries name value df row :
  wf_frame df → row ∈ rows (set_column name value df) →
  carries (set_column name value df) row name value.
Proof.
  unfold wf_frame, set_column, carries. intros Hwf.
  rewrite Forall_forall in Hwf.
  case_bool_decide as Hin; simpl; intros (row0 & -> & Hrow)%list_elem_of_fmap.
  - split; [done|]. intros i Hi. rewrite list_lookup_imap.
    destruct (row0 !! i) as [c|] eqn:Ec; simpl.
    + by rewrite bool_decide_eq_true_2.
    + apply lookup_lt_Some in Hi. apply lookup_ge_None in Ec.
      rewrite (Hwf _ Hrow) in Ec. lia.
  - split; [apply elem_of_app; right; left|]. intros i Hi.
    destruct (decide (i < length (columns df))) as [Hlt|Hge].
    + rewrite lookup_app_l in Hi by done.
      exfalso. by eapply Hin, list_elem_of_lookup_2.
    + rewrite lookup_app_r in Hi by lia.
      rewrite lookup_app_r by (rewrite (Hwf _ Hrow); lia).
      rewrite (Hwf _ Hrow).
      destruct (i - length (columns df)) as [|n]; [done|].
      by destruct n.
Qed.

Lemma set_column_carries_other name value df label value' :
  label ≠ name →
  (∀ row, row ∈ rows df → carries df row label value') →
  ∀ row, row ∈ rows (set_column name value df) →
         carries (set_column name value df) row label value'.
Proof.
  unfold set_column, carries. intros Hne Hdf.
  case_bool_decide as Hin; simpl; intros row (row0 & -> & Hrow)%list_elem_of_fmap;
    destruct (Hdf _ Hrow) as [Hlab Hcells].
  - split; [done|]. intros i Hi. rewrite list_lookup_imap, (Hcells i Hi). simpl.
    rewrite bool_decide_eq_false_2; [done|]. rewrite Hi. congruence.
  - split; [apply elem_of_app; by left|]. intros i Hi.
    destruct (decide (i < length (columns df))) as [Hlt|Hge].
    + rewrite lookup_app_l in Hi by done.
      apply lookup_app_l_Some. by apply Hcells.
    + rewrite lookup_app_r in Hi by lia.
      destruct (i - length (columns df)) as [|n]; simpl in Hi; [congruence|].
      by destruct n.
Qed.

Lemma add_team_info_carries team_name team_url city_state df row :
  wf_frame df →
  row ∈ rows (add_team_info team_name team_url city_state df) →
  let df' := add_team_info team_name team_url city_state df in
  carries df' row "TEAM" team_name
  ∧ carries df' row "CITY_STATE" city_state
  ∧ carries df' row "STATS_URL" team_url.
Proof.
  intros Hwf Hrow. simpl. unfold add_team_info in *.
  pose proof (set_column_wf "TEAM" team_name df Hwf) as Hwf1.
  pose proof (set_column_wf "CITY_STATE" city_state _ Hwf1) as Hwf2.
  split_and!.
  - revert row Hrow. apply set_column_carries_other; [done|].
    apply set_column_carries_other; [done|].
    intros row. by apply set_column_carries.
  - revert row Hrow. apply set_column_carries_other; [done|].
    intros row. by apply set_column_carries.
  - by apply set_column_carries.
Qed.

(** C6: in every table the merger returns, every row holds the team name in
    the column TEAM, the city and state in CITY_STATE and the source URL in
    STATS_URL, whatever frames the other cells of the row come from. *)
Theorem merged_rows_carry_team_info
    (tables : list DataFrame) (team_name team_url city_state : string)
    (merged : list (table_type * DataFrame)) (t : table_type) (df : DataFrame)
    (row : list cell) :
  Forall wf_frame tables →
  _merge_tables_by_type tables team_name team_url city_state = Ok merged →
  (t, df) ∈ merged →
  row ∈ rows df →
  carries df row "TEAM" team_name
  ∧ carries df row "CITY_STATE" city_state
  ∧ carries df row "STATS_URL" team_url.
Proof.
  intros Hwf Hm Hdf Hrow. unfold _merge_tables_by_type in Hm.
  destruct (merge_groups_ok_elem _ _ _ _ _ _ _ Hm Hdf)
    as (first & rest & m & Hg & Hall & ->).
  apply add_team_info_carries; [|done].
  eapply merge_all_wf; [|exact Hall].
  apply group_tables_elem in Hg.
  assert (Hf : first ∈ group_of t tables) by (rewrite <- Hg; left).
  apply group_of_elem in Hf as (d0 & Hd0 & -> & _).
  apply normalize_columns_wf. rewrite Forall_forall in Hwf. auto.
Qed.

Lemma merged_rows_carry_team_info_witness :
  carries Sample.merged_batting
    [Some "3"; Some "Cat Doe"; None; None; Some "4"; Some "2";
     Some "Riders"; Some "Camden, DE"; Some "/riders"] "TEAM" "Riders"
  ∧ carries Sample.merged_batting
      [Some "3"; Some "Cat Doe"; None; None; Some "4"; Some "2";
       Some "Riders"; Some "Camden, DE"; Some "/riders"] "CITY_STATE" "Camden, DE"
  ∧ carries Sample.merged_batting
      [Some "3"; Some "Cat Doe"; None; None; Some "4"; Some "2";
       Some "Riders"; Some "Camden, DE"; Some "/riders"] "STATS_URL" "/riders".
Proof.
  apply (merged_rows_carry_team_info [Sample.batting_1; Sample.batting_2]
           "Riders" "/riders" "Camden, DE" [(batting, Sample.merged_batting)] batting).
  - repeat constructor.
  - vm_compute. reflexivity.
  - left.
  - do 2 right. left.
Defined.

(** ** Category merger: the outer join of one step *)

Lemma drop_positions_from_ge {A} n pos (l : list A) :
  (∀ p, p ∈ pos → p < n) → Pandas.drop_positions_from n pos l = l.
Proof.
  revert n. induction l as [|x l IH]; intros n Hn; simpl; [done|].
  rewrite bool_decide_eq_false_2 by (intros H%Hn; lia).
  rewrite IH; [done|]. intros p H%Hn. lia.
Qed.

Lemma drop_positions_01 {A} (x y : A) (l : list A) :
  Pandas.drop_positions [0; 1] (x :: y :: l) = l.
Proof.
  unfold Pandas.drop_positions. cbn [Pandas.drop_positions_from].
  rewrite !bool_decide_eq_true_2 by set_solver.
  apply drop_positions_from_ge. intros p Hp.
  apply elem_of_cons in Hp as [->|Hp]; [lia|].
  apply list_elem_of_singleton in Hp as ->. lia.
Qed.

Lemma label_at_position cols label i :
  i ∈ positions cols label → default "" (cols !! i) = label.
Proof. intros H%elem_of_positions. by rewrite H. Qed.

Lemma fmap_label_positions cols label :
  (λ i, default "" (cols !! i)) <$> positions cols label
  = replicate (length (positions cols label)) label.
Proof.
  assert (H : ∀ l, (∀ i, i ∈ l → i ∈ positions cols label) →
            (λ i, default "" (cols !! i)) <$> l = replicate (length l) label).
  { induction l as [|i l IH]; intros Hl; [done|].
    rewrite fmap_cons, IH by (intros j Hj; apply Hl; by right).
    by rewrite (label_at_position cols label i) by (apply Hl; left). }
  by apply H.
Qed.

Lemma value_labels_elem df c :
  c ∈ value_labels df ↔ c ∈ columns df ∧ c ∉ key_columns.
Proof.
  unfold value_labels, value_positions, value_columns.
  rewrite list_elem_of_fmap. split.
  - intros (i & -> & Hi). apply list_elem_of_bind in Hi as (l & Hi & Hl).
    apply list_elem_of_filter in Hl as [Hl1 Hl2].
    by rewrite (label_at_position _ _ _ Hi).
  - intros [Hc Hk]. apply list_elem_of_lookup in Hc as [i Hi].
    exists i. split; [by rewrite Hi|].
    apply list_elem_of_bind. exists c. split; [by apply elem_of_positions|].
    apply list_elem_of_filter. split; [done|]. by eapply list_elem_of_lookup_2.
Qed.

(** The frame [df[key_columns + right_columns]] when both keys pass the
    uniqueness check of the join: the keys are its first two columns. *)
Lemma select_right_shape d right j1 j2 :
  df_select d (key_columns ++ value_columns d) = Ok right →
  Pandas.check_key right "#" = Ok j1 →
  Pandas.check_key right "ATHLETE NAME" = Ok j2 →
  ∃ a1 a2,
    positions (columns d) "#" = [a1]
    ∧ positions (columns d) "ATHLETE NAME" = [a2]
    ∧ j1 = 0 ∧ j2 = 1
    ∧ right = mkFrame ("#" :: "ATHLETE NAME" :: value_labels d)
                ((λ row, cell_at row a1 :: cell_at row a2 :: value_cells d row)
                   <$> rows d).
Proof.
  intros [Hlab ->]%df_select_ok Hc1 Hc2.
  apply check_key_ok in Hc1, Hc2. cbn [columns] in Hc1, Hc2.
  assert (Hidx : (key_columns ++ value_columns d) ≫= positions (columns d)
                 = positions (columns d) "#"
                   ++ positions (columns d) "ATHLETE NAME" ++ value_positions d).
  { rewrite bind_app. unfold key_columns. rewrite !bind_cons.
    change (@nil string ≫= positions (columns d)) with (@nil nat).
    by rewrite app_nil_r, <- (assoc_L (++)). }
  revert Hc1 Hc2. generalize Hidx.
  generalize ((key_columns ++ value_columns d) ≫= positions (columns d)).
  intros idx ->. clear Hidx.
  rewrite !fmap_app, !fmap_label_positions. fold (value_labels d).
  intros Hc1 Hc2.
  assert (H1 : "#" ∈ columns d) by (apply Hlab; set_solver).
  assert (H2 : "ATHLETE NAME" ∈ columns d) by (apply Hlab; set_solver).
  apply list_elem_of_lookup in H1 as [b1 H1]. apply elem_of_positions in H1.
  apply list_elem_of_lookup in H2 as [b2 H2]. apply elem_of_positions in H2.
  destruct (positions (columns d) "#") as [|a1 [|a1' P1]] eqn:E1;
    [by apply elem_of_nil in H1| |].
  2:{ exfalso. simpl in Hc1.
      assert (H0 : 0 ∈ [j1]) by (rewrite <- Hc1; by apply elem_of_positions).
      assert (H1' : 1 ∈ [j1]) by (rewrite <- Hc1; by apply elem_of_positions).
      apply list_elem_of_singleton in H0, H1'. congruence. }
  destruct (positions (columns d) "ATHLETE NAME") as [|a2 [|a2' P2]] eqn:E2;
    [by apply elem_of_nil in H2| |].
  2:{ exfalso. simpl in Hc2.
      assert (H0 : 1 ∈ [j2]) by (rewrite <- Hc2; by apply elem_of_positions).
      assert (H1' : 2 ∈ [j2]) by (rewrite <- Hc2; by apply elem_of_positions).
      apply list_elem_of_singleton in H0, H1'. congruence. }
  simpl in Hc1, Hc2.
  assert (H0 : 0 ∈ [j1]) by (rewrite <- Hc1; by apply elem_of_positions).
  assert (H1' : 1 ∈ [j2]) by (rewrite <- Hc2; by apply elem_of_positions).
  apply list_elem_of_singleton in H0, H1'. subst j1 j2.
  exists a1, a2. split_and!; try done.
Qed.

(** What one successful step of the merge loop computes. *)
Lemma merge_step_inv acc d m :
  has_value_column d → merge_step acc d = Ok m →
  ∃ i1 i2 a1 a2,
    positions (columns acc) "#" = [i1]
    ∧ positions (columns acc) "ATHLETE NAME" = [i2]
    ∧ positions (columns d) "#" = [a1]
    ∧ positions (columns d) "ATHLETE NAME" = [a2]
    ∧ columns m
      = ((λ c, if bool_decide (c ∈ value_labels d) then c +:+ "_x" else c)
           <$> columns acc)
        ++ ((λ c, if bool_decide (c ∈ columns acc) then c +:+ "_y" else c)
              <$> value_labels d)
    ∧ let rrows := (λ row, cell_at row a1 :: cell_at row a2 :: value_cells d row)
                     <$> rows d in
      rows m
      = Pandas.sort_keys
          (remove_dups ((Pandas.key_of [i1; i2] <$> rows acc)
                        ++ (Pandas.key_of [0; 1] <$> rrows)))
        ≫= Pandas.joined_rows (rows acc) rrows (length (columns acc))
             (length (value_labels d)) [i1; i2] [0; 1].
Proof.
  intros Hv. unfold merge_step. rewrite bool_decide_eq_true_2 by exact Hv.
  fold (value_columns d).
  destruct (df_select d _) as [right|] eqn:Es; [|done]. cbn [mbind result_bind].
  unfold Pandas.merge_outer, key_columns. cbn [Pandas.key_positions].
  destruct (Pandas.check_key right "#") as [j1|] eqn:Er1; [|done].
  cbn [mbind result_bind].
  destruct (Pandas.check_key acc "#") as [i1|] eqn:El1; [|done].
  cbn [mbind result_bind].
  destruct (Pandas.check_key right "ATHLETE NAME") as [j2|] eqn:Er2; [|done].
  cbn [mbind result_bind].
  destruct (Pandas.check_key acc "ATHLETE NAME") as [i2|] eqn:El2; [|done].
  cbn [mbind result_bind mret result_ret fmap list_fmap fst snd].
  destruct (select_right_shape _ _ _ _ Es Er1 Er2)
    as (a1 & a2 & Ha1 & Ha2 & -> & -> & ->).
  cbn [columns rows]. rewrite drop_positions_01.
  case_bool_decide; [done|]. intros [= <-].
  exists i1, i2, a1, a2. split_and!; try done; by apply check_key_ok.
Qed.

Lemma sort_keys_elem k ks : k ∈ Pandas.sort_keys ks ↔ k ∈ ks.
Proof. unfold Pandas.sort_keys. by rewrite merge_sort_Permutation. Qed.

Section joined_rows.
Context (lrows rrows : list (list cell)) (lw rw : nat) (lpos rpos : list nat).

Lemma joined_rows_left_only l :
  l ∈ lrows →
  (∀ r, r ∈ rrows → Pandas.key_of rpos r ≠ Pandas.key_of lpos l) →
  l ++ replicate rw None
  ∈ Pandas.joined_rows lrows rrows lw rw lpos rpos (Pandas.key_of lpos l).
Proof.
  intros Hl Hr. unfold Pandas.joined_rows.
  destruct (filter (λ row, Pandas.key_of rpos row = _) rrows) as [|r0 rs] eqn:Ers.
  - destruct (filter (λ row, Pandas.key_of lpos row = _) lrows) as [|l0 ls] eqn:Els.
    + exfalso. by eapply (filter_nil_not_elem_of _ _ l Els).
    + rewrite <- Els. apply list_elem_of_fmap. exists l. split; [done|].
      by apply list_elem_of_filter.
  - exfalso. assert (Hin : r0 ∈ r0 :: rs) by left. rewrite <- Ers in Hin.
    apply list_elem_of_filter in Hin as [? ?]. by eapply Hr.
Qed.

Lemma joined_rows_both l r :
  l ∈ lrows → r ∈ rrows → Pandas.key_of rpos r = Pandas.key_of lpos l →
  l ++ Pandas.drop_positions rpos r
  ∈ Pandas.joined_rows lrows rrows lw rw lpos rpos (Pandas.key_of lpos l).
Proof.
  intros Hl Hr Hk. unfold Pandas.joined_rows.
  assert (Hls : l ∈ filter (λ row, Pandas.key_of lpos row = Pandas.key_of lpos l) lrows)
    by (by apply list_elem_of_filter).
  assert (Hrs : r ∈ filter (λ row, Pandas.key_of rpos row = Pandas.key_of lpos l) rrows)
    by (by apply list_elem_of_filter).
  destruct (filter (λ row, Pandas.key_of lpos row = _) lrows) as [|l0 ls];
    [by apply elem_of_nil in Hls|].
  destruct (filter (λ row, Pandas.key_of rpos row = _) rrows) as [|r0 rs];
    [by apply elem_of_nil in Hrs|].
  apply list_elem_of_bind. exists l. split; [|done].
  apply list_elem_of_bind. exists r. split; [|done]. left.
Qed.

Lemma joined_rows_right_only r :
  r ∈ rrows →
  (∀ l, l ∈ lrows → Pandas.key_of lpos l ≠ Pandas.key_of rpos r) →
  Pandas.left_part_of_key lw lpos (Pandas.key_of rpos r) ++ Pandas.drop_positions rpos r
  ∈ Pandas.joined_rows lrows rrows lw rw lpos rpos (Pandas.key_of rpos r).
Proof.
  intros Hr Hl. unfold Pandas.joined_rows.
  destruct (filter (λ row, Pandas.key_of lpos row = _) lrows) as [|l0 ls] eqn:Els.
  - apply list_elem_of_fmap. exists r. split; [done|].
    by apply list_elem_of_filter.
  - exfalso. assert (Hin : l0 ∈ l0 :: ls) by left. rewrite <- Els in Hin.
    apply list_elem_of_filter in Hin as [? ?]. by eapply Hl.
Qed.

End joined_rows.

Lemma cell_at_app_l (l x : list cell) i : i < length l → cell_at (l ++ x) i = cell_at l i.
Proof. intros Hi. unfold cell_at. by rewrite lookup_app_l. Qed.

Lemma position_lt cols label i : positions cols label = [i] → i < length cols.
Proof.
  intros H. assert (Hi : i ∈ positions cols label) by (rewrite H; left).
  apply elem_of_positions in Hi. by eapply lookup_lt_Some.
Qed.

Lemma athlete_key_unique df row i1 i2 :
  positions (columns df) "#" = [i1] →
  positions (columns df) "ATHLETE NAME" = [i2] →
  athlete_key df row = [[cell_at row i1]; [cell_at row i2]].
Proof. intros H1 H2. unfold athlete_key, key_columns. simpl. by rewrite H1, H2. Qed.

Lemma string_length_app (s1 s2 : string) :
  String.length (s1 +:+ s2) = String.length s1 + String.length s2.
Proof. induction s1 as [|c s1 IH]; simpl; [done|]. by rewrite IH. Qed.

(** A suffixed label is not a join-key label. *)
Lemma suffixed_not_key c sfx k :
  sfx ∈ ["_x"; "_y"] → k ∈ key_columns → c +:+ sfx ≠ k.
Proof.
  intros Hs Hk H.
  assert (Hlen : String.length c + 2 = String.length k).
  { rewrite <- H, string_length_app.
    apply elem_of_cons in Hs as [->|Hs]; [done|].
    by apply list_elem_of_singleton in Hs as ->. }
  unfold key_columns in Hk. apply elem_of_cons in Hk as [->|Hk].
  - simpl in Hlen. lia.
  - apply list_elem_of_singleton in Hk as ->. simpl in Hlen.
    do 10 (destruct c as [|? c]; [simpl in Hlen; lia|]).
    destruct c; [|simpl in Hlen; lia].
    apply elem_of_cons in Hs as [->|Hs]; [discriminate H|].
    apply list_elem_of_singleton in Hs as ->. discriminate H.
Qed.

Lemma positions_not_elem cols label : label ∉ cols → positions cols label = [].
Proof.
  intros Hn. destruct (positions cols label) as [|i l] eqn:E; [done|]. exfalso.
  assert (Hi : i ∈ positions cols label) by (rewrite E; left).
  apply elem_of_positions in Hi. by eapply Hn, list_elem_of_lookup_2.
Qed.

(** The suffixes leave the join-key columns where they are in the left
    frame and create no further column with a key label. *)
Lemma renamed_key_positions (lcols vlabels : list string) k :
  k ∈ key_columns →
  (∀ c, c ∈ vlabels → c ∉ key_columns) →
  positions
    (((λ c, if bool_decide (c ∈ vlabels) then c +:+ "_x" else c) <$> lcols)
     ++ ((λ c, if bool_decide (c ∈ lcols) then c +:+ "_y" else c) <$> vlabels)) k
  = positions lcols k.
Proof.
  intros Hk Hv. rewrite positions_app.
  rewrite (positions_not_elem (_ <$> vlabels)).
  - rewrite fmap_nil, app_nil_r. unfold positions. rewrite length_fmap.
    apply filter_ext_elem. intros i _. rewrite list_lookup_fmap.
    destruct (lcols !! i) as [c|]; simpl; [|done].
    case_bool_decide as Hc.
    + split; intros [= H].
      * exfalso. eapply suffixed_not_key; [| |exact H]; [set_solver|done].
      * subst c. exfalso. by eapply Hv.
    + done.
  - intros (c & Hc & Hin)%list_elem_of_fmap. case_bool_decide.
    + symmetry in Hc. eapply suffixed_not_key; [| |exact Hc]; [set_solver|done].
    + subst c. by eapply Hv.
Qed.

Lemma merge_step_key_positions acc d m k :
  has_value_column d → merge_step acc d = Ok m → k ∈ key_columns →
  positions (columns m) k = positions (columns acc) k.
Proof.
  intros Hv Hm Hk.
  destruct (merge_step_inv _ _ _ Hv Hm) as (i1 & i2 & a1 & a2 & _ & _ & _ & _ & -> & _).
  apply renamed_key_positions; [done|].
  by intros c [_ ?]%value_labels_elem.
Qed.

Lemma left_part_of_key_lookup lw i1 i2 (k1 k2 : cell) i :
  i1 ≠ i2 → i < lw →
  Pandas.left_part_of_key lw [i1; i2] [k1; k2] !! i
  = Some (if bool_decide (i = i1) then k1
          else if bool_decide (i = i2) then k2 else None).
Proof.
  intros Hne Hi. unfold Pandas.left_part_of_key.
  rewrite list_lookup_fmap, lookup_seq_lt by done. simpl. f_equal.
  case_decide as H1.
  - subst. by rewrite bool_decide_eq_true_2.
  - rewrite (bool_decide_eq_false_2 (i = i1)) by congruence.
    case_decide as H2; simpl.
    + subst. by rewrite bool_decide_eq_true_2.
    + by rewrite bool_decide_eq_false_2 by congruence.
Qed.

(** The rows one successful step of the merge loop produces: a row of the
    accumulated frame without partner is completed with missing values, a
    row with a partner is completed with the partner's value cells, and a
    row of the joined frame without partner gets a left part that holds its
    key and is missing elsewhere. *)
Lemma merge_step_rows acc d m :
  has_value_column d → wf_frame acc → merge_step acc d = Ok m →
  (∀ l, l ∈ rows acc →
        (∀ r, r ∈ rows d → athlete_key d r ≠ athlete_key acc l) →
        l ++ replicate (length (value_labels d)) None ∈ rows m)
  ∧ (∀ l r, l ∈ rows acc → r ∈ rows d →
            athlete_key d r = athlete_key acc l →
            l ++ value_cells d r ∈ rows m)
  ∧ (∀ r, r ∈ rows d →
          (∀ l, l ∈ rows acc → athlete_key acc l ≠ athlete_key d r) →
          ∃ lp, lp ++ value_cells d r ∈ rows m
                ∧ length lp = length (columns acc)
                ∧ athlete_key acc lp = athlete_key d r
                ∧ ∀ i c, columns acc !! i = Some c → c ∉ key_columns →
                         lp !! i = Some None).
Proof.
  intros Hv Hwf Hm.
  destruct (merge_step_inv _ _ _ Hv Hm)
    as (i1 & i2 & a1 & a2 & Hi1 & Hi2 & Ha1 & Ha2 & _ & Hrows).
  simpl in Hrows. rewrite Hrows. clear Hrows.
  set (sel := λ row : list cell, cell_at row a1 :: cell_at row a2 :: value_cells d row).
  assert (Hkl : ∀ l, athlete_key acc l = (λ c, [c]) <$> Pandas.key_of [i1; i2] l).
  { intros l. by rewrite (athlete_key_unique _ _ _ _ Hi1 Hi2). }
  assert (Hkr : ∀ r, athlete_key d r = (λ c, [c]) <$> Pandas.key_of [0; 1] (sel r)).
  { intros r. by rewrite (athlete_key_unique _ _ _ _ Ha1 Ha2). }
  assert (Hinj : ∀ k1 k2 : list cell,
            (λ c, [c]) <$> k1 = (λ c, [c]) <$> k2 → k1 = k2).
  { intros k1 k2. apply (inj (fmap _)). }
  assert (Hkeys : ∀ k, k ∈ (Pandas.key_of [i1; i2] <$> rows acc)
                            ++ (Pandas.key_of [0; 1] <$> (sel <$> rows d)) →
            k ∈ Pandas.sort_keys
                  (remove_dups ((Pandas.key_of [i1; i2] <$> rows acc)
                                ++ (Pandas.key_of [0; 1] <$> (sel <$> rows d))))).
  { intros k Hk. by apply sort_keys_elem, elem_of_remove_dups. }
  split_and!.
  - intros l Hl Hno. apply list_elem_of_bind.
    exists (Pandas.key_of [i1; i2] l). split.
    + apply joined_rows_left_only; [done|].
      intros r' (r & -> & Hr)%list_elem_of_fmap Heq.
      apply (Hno r Hr). by rewrite Hkl, Hkr, Heq.
    + apply Hkeys, elem_of_app. left. by apply list_elem_of_fmap_2.
  - intros l r Hl Hr Heq. apply list_elem_of_bind.
    exists (Pandas.key_of [i1; i2] l). split.
    + rewrite <- (drop_positions_01 (cell_at r a1) (cell_at r a2) (value_cells d r)).
      apply joined_rows_both; [done|by apply (list_elem_of_fmap_2 sel)|].
      apply Hinj. by rewrite <- Hkl, <- Heq, Hkr.
    + apply Hkeys, elem_of_app. left. by apply list_elem_of_fmap_2.
  - intros r Hr Hno.
    assert (Hne : i1 ≠ i2).
    { intros <-. assert (H1 : i1 ∈ positions (columns acc) "#") by (rewrite Hi1; left).
      assert (H2 : i1 ∈ positions (columns acc) "ATHLETE NAME") by (rewrite Hi2; left).
      apply elem_of_positions in H1, H2. congruence. }
    pose proof (position_lt _ _ _ Hi1) as Hlt1.
    pose proof (position_lt _ _ _ Hi2) as Hlt2.
    exists (Pandas.left_part_of_key (length (columns acc)) [i1; i2]
              (Pandas.key_of [0; 1] (sel r))).
    split_and!.
    + apply list_elem_of_bind. exists (Pandas.key_of [0; 1] (sel r)). split.
      * rewrite <- (drop_positions_01 (cell_at r a1) (cell_at r a2) (value_cells d r)).
        apply joined_rows_right_only; [by apply (list_elem_of_fmap_2 sel)|].
        intros l Hl Heq. apply (Hno l Hl). by rewrite Hkl, Hkr, Heq.
      * apply Hkeys, elem_of_app. right.
        by apply list_elem_of_fmap_2, (list_elem_of_fmap_2 sel).
    + unfold Pandas.left_part_of_key. by rewrite length_fmap, length_seq.
    + rewrite Hkl, Hkr. f_equal. unfold Pandas.key_of. cbn [fmap list_fmap].
      assert (Hc : ∀ i, i < length (columns acc) →
                cell_at (Pandas.left_part_of_key (length (columns acc)) [i1; i2]
                           [cell_at (sel r) 0; cell_at (sel r) 1]) i
                = if bool_decide (i = i1) then cell_at (sel r) 0
                  else if bool_decide (i = i2) then cell_at (sel r) 1 else None).
      { intros i Hi. unfold cell_at at 1.
        by rewrite left_part_of_key_lookup by done. }
      rewrite !Hc by done.
      rewrite (bool_decide_eq_true_2 (i1 = i1)) by done.
      rewrite (bool_decide_eq_false_2 (i2 = i1)) by congruence.
      by rewrite (bool_decide_eq_true_2 (i2 = i2)) by done.
    + intros i c Hc Hck.
      change (Pandas.key_of [0; 1] (sel r))
        with [cell_at (sel r) 0; cell_at (sel r) 1].
      rewrite left_part_of_key_lookup; [|done|by eapply lookup_lt_Some].
      assert (H1 : i1 ∈ positions (columns acc) "#") by (rewrite Hi1; left).
      assert (H2 : i2 ∈ positions (columns acc) "ATHLETE NAME") by (rewrite Hi2; left).
      apply elem_of_positions in H1, H2.
      rewrite !bool_decide_eq_false_2; [done| |];
        intros ->; apply Hck; unfold key_columns; set_solver.
Qed.

(** ** Category merger: every athlete of every source frame appears *)

Lemma athlete_key_app df df' (row x : list cell) :
  (∀ k, k ∈ key_columns → positions (columns df') k = positions (columns df) k) →
  length row = length (columns df) →
  athlete_key df' (row ++ x) = athlete_key df row.
Proof.
  intros Hpos Hlen. unfold athlete_key.
  apply list_fmap_ext. intros n k Hk.
  rewrite Hpos by (by eapply list_elem_of_lookup_2).
  apply list_fmap_ext. intros j i Hi.
  apply cell_at_app_l. rewrite Hlen.
  apply list_elem_of_lookup_2, elem_of_positions in Hi. by eapply lookup_lt_Some.
Qed.

Lemma merge_step_keeps_keys acc d m :
  has_value_column d → wf_frame acc → merge_step acc d = Ok m →
  (∀ l, l ∈ rows acc → ∃ row, row ∈ rows m ∧ athlete_key m row = athlete_key acc l)
  ∧ (∀ r, r ∈ rows d → ∃ row, row ∈ rows m ∧ athlete_key m row = athlete_key d r).
Proof.
  intros Hv Hwf Hm.
  destruct (merge_step_rows _ _ _ Hv Hwf Hm) as (Hleft & Hboth & Hright).
  assert (Hkey : ∀ lp x, length lp = length (columns acc) →
            athlete_key m (lp ++ x) = athlete_key acc lp).
  { intros lp x. apply athlete_key_app. intros k.
    by apply (merge_step_key_positions acc d). }
  assert (Hlen : ∀ l, l ∈ rows acc → length l = length (columns acc)).
  { intros l Hl. unfold wf_frame in Hwf. rewrite Forall_forall in Hwf. auto. }
  split.
  - intros l Hl.
    destruct (decide (Exists (λ r, athlete_key d r = athlete_key acc l) (rows d)))
      as [(r & Hr & Heq)%Exists_exists|Hno].
    + exists (l ++ value_cells d r). split; [by apply Hboth|]. by apply Hkey, Hlen.
    + exists (l ++ replicate (length (value_labels d)) None). split.
      * apply Hleft; [done|]. intros r Hr Heq. apply Hno, Exists_exists. eauto.
      * by apply Hkey, Hlen.
  - intros r Hr.
    destruct (decide (Exists (λ l, athlete_key acc l = athlete_key d r) (rows acc)))
      as [(l & Hl & Heq)%Exists_exists|Hno].
    + exists (l ++ value_cells d r). split; [by apply Hboth|].
      rewrite <- Heq. by apply Hkey, Hlen.
    + destruct (Hright r Hr) as (lp & Hin & Hlp & Hk & _).
      * intros l Hl Heq. apply Hno, Exists_exists. eauto.
      * exists (lp ++ value_cells d r). split; [done|]. rewrite <- Hk. by apply Hkey.
Qed.

Lemma merge_all_keeps_keys acc dfs m :
  Forall has_value_column dfs → wf_frame acc → merge_all acc dfs = Ok m →
  ∀ d r, d ∈ acc :: dfs → r ∈ rows d →
         ∃ row, row ∈ rows m ∧ athlete_key m row = athlete_key d r.
Proof.
  intros Hv. revert acc. induction Hv as [|d0 dfs Hd0 Hv IH]; intros acc Hwf; simpl.
  - intros [= <-] d r Hd Hr. apply list_elem_of_singleton in Hd as ->. eauto.
  - destruct (merge_step acc d0) as [m1|] eqn:Es; [|done]. simpl. intros Hm d r Hd Hr.
    destruct (merge_step_keeps_keys _ _ _ Hd0 Hwf Es) as [Hacc Hnew].
    pose proof (merge_step_wf _ _ _ Hwf Es) as Hwf1.
    assert (Hvia : ∀ row1, row1 ∈ rows m1 →
              ∃ row, row ∈ rows m ∧ athlete_key m row = athlete_key m1 row1).
    { intros row1 H1. apply (IH m1 Hwf1 Hm m1 row1); [left|done]. }
    apply elem_of_cons in Hd as [->|Hd].
    + destruct (Hacc r Hr) as (row1 & H1 & E1).
      destruct (Hvia row1 H1) as (row & H & E). exists row. by rewrite E, E1.
    + apply elem_of_cons in Hd as [->|Hd].
      * destruct (Hnew r Hr) as (row1 & H1 & E1).
        destruct (Hvia row1 H1) as (row & H & E). exists row. by rewrite E, E1.
      * apply (IH m1 Hwf1 Hm d r); [by right|done].
Qed.

Lemma set_column_keeps_keys name value df row :
  name ∉ key_columns → wf_frame df → row ∈ rows df →
  ∃ row', row' ∈ rows (set_column name value df)
          ∧ athlete_key (set_column name value df) row' = athlete_key df row.
Proof.
  intros Hname Hwf Hrow. unfold wf_frame in Hwf. rewrite Forall_forall in Hwf.
  unfold set_column. case_bool_decide as Hin.
  - eexists. split; [simpl; apply list_elem_of_fmap_2, Hrow|].
    unfold athlete_key. cbn [columns]. apply list_fmap_ext. intros n k Hk.
    apply list_fmap_ext. intros j i Hi.
    apply list_elem_of_lookup_2, elem_of_positions in Hi.
    unfold cell_at. rewrite list_lookup_imap.
    destruct (row !! i) as [c|]; simpl; [|done].
    rewrite bool_decide_eq_false_2; [done|]. rewrite Hi. intros [= ->].
    by eapply Hname, list_elem_of_lookup_2.
  - exists (row ++ [Some value]). split; [simpl; by apply (list_elem_of_fmap_2 (λ r, r ++ _))|].
    apply athlete_key_app; [|by apply Hwf]. intros k Hk. simpl.
    rewrite positions_app, (positions_not_elem [name]); [by rewrite app_nil_r|].
    intros ->%list_elem_of_singleton. done.
Qed.

Lemma add_team_info_keeps_keys team_name team_url city_state df row :
  wf_frame df → row ∈ rows df →
  ∃ row', row' ∈ rows (add_team_info team_name team_url city_state df)
          ∧ athlete_key (add_team_info team_name team_url city_state df) row'
            = athlete_key df row.
Proof.
  intros Hwf Hrow. unfold add_team_info.
  assert (Hn : ∀ n, n ∈ ["TEAM"; "CITY_STATE"; "STATS_URL"] → n ∉ key_columns).
  { intros n Hn Hk. unfold key_columns in Hk.
    repeat (apply elem_of_cons in Hn as [->|Hn]; [set_solver|]).
    by apply elem_of_nil in Hn. }
  destruct (set_column_keeps_keys "TEAM" team_name df row) as (r1 & H1 & E1);
    [apply Hn; set_solver|done|done|].
  pose proof (set_column_wf "TEAM" team_name df Hwf) as Hwf1.
  destruct (set_column_keeps_keys "CITY_STATE" city_state
              (set_column "TEAM" team_name df) r1) as (r2 & H2 & E2);
    [apply Hn; set_solver|done|done|].
  pose proof (set_column_wf "CITY_STATE" city_state _ Hwf1) as Hwf2.
  destruct (set_column_keeps_keys "STATS_URL" team_url
              (set_column "CITY_STATE" city_state (set_column "TEAM" team_name df)) r2)
    as (r3 & H3 & E3);
    [apply Hn; set_solver|done|done|].
  exists r3. split; [done|]. by rewrite E3, E2, E1.
Qed.

Lemma merge_groups_ok_group groups team_name team_url city_state merged t first rest :
  merge_groups groups team_name team_url city_state = Ok merged →
  (t, first :: rest) ∈ groups →
  ∃ m, merge_all first rest = Ok m
       ∧ (t, add_team_info team_name team_url city_state m) ∈ merged.
Proof.
  revert merged. induction groups as [|[t' dfs] groups IH]; intros merged; simpl.
  - intros _ Hin. by apply elem_of_nil in Hin.
  - destruct (merge_group dfs _ _ _) as [o|] eqn:Eg; [|done]. simpl.
    destruct (merge_groups groups _ _ _) as [merged'|]; [|done]. simpl.
    intros [= <-] Hin. apply elem_of_cons in Hin as [[= <- <-]|Hin].
    + simpl in Eg. destruct (merge_all first rest) as [m|]; [|done].
      injection Eg as <-. exists m. split; [done|]. left.
    + destruct (IH _ eq_refl Hin) as (m & Hm & Hin').
      exists m. split; [done|]. destruct o; [by right|done].
Qed.

(** C3: the merger outer-joins the frames of a category on the key ("#",
    "ATHLETE NAME").  Every athlete of every frame of a group has a row in
    the merged table of the group.  In one step of the loop, a row of the
    accumulated frame without partner in the joined frame is completed with
    missing values in the joined frame's value columns (its columns besides
    the keys), a row with a partner is completed with the partner's value
    cells, and a row of the joined frame without partner gets its key in
    the key columns and missing values in all other columns of the
    accumulated frame.  Merging a frame with the columns #, ATHLETE NAME,
    AVG for athletes 1 and 2 with a frame with the columns #, ATHLETE NAME,
    ERA for athletes 2 and 3 gives three rows: athlete 1 without ERA,
    athlete 2 complete, athlete 3 without AVG. *)
Theorem merge_is_outer_join :
  (∀ tables team_name team_url city_state merged t dfs d r,
     Forall wf_frame tables →
     _merge_tables_by_type tables team_name team_url city_state = Ok merged →
     (t, dfs) ∈ group_tables tables → d ∈ dfs → r ∈ rows d →
     ∃ df row, (t, df) ∈ merged ∧ row ∈ rows df
               ∧ athlete_key df row = athlete_key d r)
  ∧ (∀ tables t dfs acc d m,
       (t, dfs) ∈ group_tables tables → d ∈ dfs →
       wf_frame acc → merge_step acc d = Ok m →
       (∀ l, l ∈ rows acc →
             (∀ r, r ∈ rows d → athlete_key d r ≠ athlete_key acc l) →
             l ++ replicate (length (value_labels d)) None ∈ rows m)
       ∧ (∀ l r, l ∈ rows acc → r ∈ rows d →
                 athlete_key d r = athlete_key acc l →
                 l ++ value_cells d r ∈ rows m)
       ∧ (∀ r, r ∈ rows d →
               (∀ l, l ∈ rows acc → athlete_key acc l ≠ athlete_key d r) →
               ∃ lp, lp ++ value_cells d r ∈ rows m
                     ∧ length lp = length (columns acc)
                     ∧ athlete_key acc lp = athlete_key d r
                     ∧ ∀ i c, columns acc !! i = Some c → c ∉ key_columns →
                              lp !! i = Some None))
  ∧ merge_all Sample.table_A [Sample.table_B]
    = Ok (mkFrame ["#"; "ATHLETE NAME"; "AVG"; "ERA"]
            [ [Some "1"; Some "Ann Roe"; Some ".310"; None];
              [Some "2"; Some "Bea Poe"; Some ".275"; Some "2.10"];
              [Some "3"; Some "Cat Doe"; None; Some "3.45"] ]).
Proof.
  split_and!.
  - intros tables team_name team_url city_state merged t dfs d r Hwf Hm Hg Hd Hr.
    pose proof (group_tables_elem _ _ _ Hg) as Hdfs.
    assert (Hv : Forall has_value_column dfs).
    { subst dfs. apply Forall_forall. intros d'. apply group_member_has_value_column. }
    assert (Hwfs : Forall wf_frame dfs).
    { subst dfs. apply Forall_forall. intros d' (d0 & Hd0 & -> & _)%group_of_elem.
      apply normalize_columns_wf. rewrite Forall_forall in Hwf. auto. }
    clear Hdfs. destruct dfs as [|first rest]; [by apply elem_of_nil in Hd|].
    apply Forall_cons in Hv as [_ Hv]. apply Forall_cons in Hwfs as [Hwf1 _].
    destruct (merge_groups_ok_group _ _ _ _ _ _ _ _ Hm Hg) as (m & Hall & Hin).
    destruct (merge_all_keeps_keys _ _ _ Hv Hwf1 Hall d r Hd Hr) as (row1 & H1 & E1).
    destruct (add_team_info_keeps_keys team_name team_url city_state m row1)
      as (row & H & E); [by eapply merge_all_wf|done|].
    exists (add_team_info team_name team_url city_state m), row.
    split_and!; [done|done|]. by rewrite E, E1.
  - intros tables t dfs acc d m Hg Hd Hwf Hm.
    apply merge_step_rows; [|done|done].
    apply group_tables_elem in Hg as ->.
    by eapply group_member_has_value_column.
  - by vm_compute.
Qed.

Lemma merge_is_outer_join_witness :
  ∃ df row,
    (batting, df) ∈ [(batting, Sample.merged_batting)]
    ∧ row ∈ rows df
    ∧ athlete_key df row
      = athlete_key (normalize_columns Sample.batting_2)
          [Some "3"; Some "Cat Doe"; Some "4"; Some "2"].
Proof.
  apply (proj1 merge_is_outer_join [Sample.batting_1; Sample.batting_2]
           "Riders" "/riders" "Camden, DE" _ batting
           [normalize_columns Sample.batting_1; normalize_columns Sample.batting_2]).
  - repeat constructor.
  - vm_compute. reflexivity.
  - vm_compute. left.
  - right. left.
  - right. left.
Defined.

(** ** Category merger: the labels of the merged table *)

Lemma fmap_id_on {A} (f : A → A) (l : list A) :
  (∀ x, x ∈ l → f x = x) → f <$> l = l.
Proof.
  intros H. induction l as [|x l IH]; [done|].
  rewrite fmap_cons, H by left. f_equal. apply IH. intros y Hy. apply H. by right.
Qed.

Lemma merge_step_columns acc d m :
  has_value_column d → merge_step acc d = Ok m → share_only_keys acc d →
  columns m = columns acc ++ value_labels d.
Proof.
  intros Hv Hm Hs.
  destruct (merge_step_inv _ _ _ Hv Hm) as (i1 & i2 & a1 & a2 & _ & _ & _ & _ & -> & _).
  unfold share_only_keys in Hs. rewrite Forall_forall in Hs.
  f_equal; apply fmap_id_on; intros c Hc; rewrite bool_decide_eq_false_2; try done.
  - intros [Hd Hk]%value_labels_elem. by apply Hk, Hs.
  - intros Hacc. apply value_labels_elem in Hc as [Hd Hk]. by apply Hk, Hs.
Qed.

Lemma merge_all_columns acc dfs m :
  Forall has_value_column dfs → merge_all acc dfs = Ok m →
  pairwise_only_keys (acc :: dfs) →
  ∀ c, c ∈ columns m ↔ ∃ d, d ∈ acc :: dfs ∧ c ∈ columns d.
Proof.
  intros Hv. revert acc. induction Hv as [|d0 dfs Hd0 Hv IH]; intros acc; simpl.
  - intros [= <-] _ c. split; [intros ?; exists acc; split; [left|done]|].
    by intros (d & ->%list_elem_of_singleton & ?).
  - destruct (merge_step acc d0) as [m1|] eqn:Es; [|done]. simpl.
    intros Hm (Hacc & Hd0s & Hrest) c.
    apply Forall_cons in Hacc as [Hacc0 Hacc].
    pose proof (merge_step_columns _ _ _ Hd0 Es Hacc0) as Hcols.
    destruct (merge_step_ok_keys _ _ _ Hd0 Es) as [Hkacc _].
    assert (Hm1 : ∀ c, c ∈ columns m1 ↔ c ∈ columns acc ∨ c ∈ columns d0).
    { intros c'. rewrite Hcols, elem_of_app, value_labels_elem.
      split; [naive_solver|]. intros [?|Hc']; [by left|].
      destruct (decide (c' ∈ key_columns)) as [Hk|Hk]; [left; by apply Hkacc|by right]. }
    rewrite (IH m1 Hm).
    + split.
      * intros (d & Hd & Hc). apply elem_of_cons in Hd as [->|Hd].
        -- apply Hm1 in Hc as [Hc|Hc]; [exists acc|exists d0]; split; try done;
             [left|right; left].
        -- exists d. split; [by do 2 right|done].
      * intros (d & Hd & Hc). apply elem_of_cons in Hd as [->|Hd].
        -- exists m1. split; [left|]. apply Hm1. by left.
        -- apply elem_of_cons in Hd as [->|Hd].
           ++ exists m1. split; [left|]. apply Hm1. by right.
           ++ exists d. split; [by right|done].
    + split; [|done]. apply Forall_forall. intros d' Hd'.
      unfold share_only_keys. apply Forall_forall. intros c' Hc' Hin.
      rewrite Forall_forall in Hacc, Hd0s.
      apply Hm1 in Hc' as [Hc'|Hc'].
      * specialize (Hacc d' Hd'). unfold share_only_keys in Hacc.
        rewrite Forall_forall in Hacc. by apply Hacc.
      * specialize (Hd0s d' Hd'). unfold share_only_keys in Hd0s.
        rewrite Forall_forall in Hd0s. by apply Hd0s.
Qed.

Lemma set_column_columns name value df c :
  c ∈ columns (set_column name value df) ↔ c = name ∨ c ∈ columns df.
Proof.
  unfold set_column. case_bool_decide; simpl.
  - split; [by right|]. by intros [->|?].
  - rewrite elem_of_app, list_elem_of_singleton. tauto.
Qed.

Lemma add_team_info_columns team_name team_url city_state df c :
  c ∈ columns (add_team_info team_name team_url city_state df)
  ↔ c ∈ ["TEAM"; "CITY_STATE"; "STATS_URL"] ∨ c ∈ columns df.
Proof.
  unfold add_team_info. rewrite !set_column_columns.
  rewrite !elem_of_cons, elem_of_nil. tauto.
Qed.

(** C2 as stated fails: a batting frame with the column BA is merged into a
    table that has no column AVG. *)
Lemma merge_keeps_synonyms :
  ¬ merges_normalized_headers [Sample.batting_4] "Riders" "/riders" "Camden, DE".
Proof.
  intros H.
  specialize (H _ batting _ Sample.batting_4 "BA" eq_refl
                ltac:(left) ltac:(left) eq_refl eq_refl ltac:(set_solver)).
  vm_compute in H. set_solver.
Qed.

(** C2, amended: before merging, the merger trims and uppercases every
    column label of every frame it puts in a group, and applies no synonym
    table.  When no two frames of a group share a label besides the join
    keys, the labels of the merged table are the trimmed, uppercased labels
    of the source frames of the group together with TEAM, CITY_STATE and
    STATS_URL. *)
Theorem merge_trims_and_uppercases_headers :
  (∀ tables t dfs d,
     (t, dfs) ∈ group_tables tables → d ∈ dfs →
     ∃ d0, d0 ∈ tables ∧ df_empty d0 = false
           ∧ _determine_table_type (columns d0) = Some t
           ∧ columns d = strip_upper <$> columns d0 ∧ rows d = rows d0)
  ∧ (∀ tables team_name team_url city_state merged t dfs df,
       _merge_tables_by_type tables team_name team_url city_state = Ok merged →
       (t, dfs) ∈ group_tables tables → (t, df) ∈ merged →
       pairwise_only_keys dfs →
       ∀ c, c ∈ columns df
            ↔ c ∈ ["TEAM"; "CITY_STATE"; "STATS_URL"]
              ∨ ∃ d0 c0, d0 ∈ tables ∧ df_empty d0 = false
                         ∧ _determine_table_type (columns d0) = Some t
                         ∧ c0 ∈ columns d0 ∧ c = strip_upper c0).
Proof.
  split.
  - intros tables t dfs d Hg Hd. apply group_tables_elem in Hg as ->.
    apply group_of_elem in Hd as (d0 & ? & -> & ? & ?). by exists d0.
  - intros tables team_name team_url city_state merged t dfs df Hm Hg Hdf Hp c.
    unfold _merge_tables_by_type in Hm.
    destruct (merge_groups_ok_elem _ _ _ _ _ _ _ Hm Hdf)
      as (first & rest & m & Hg' & Hall & ->).
    pose proof (group_tables_elem _ _ _ Hg) as Hdfs.
    pose proof (group_tables_elem _ _ _ Hg') as Hdfs'.
    assert (dfs = first :: rest) as -> by congruence. clear Hdfs'.
    assert (Hv : Forall has_value_column rest).
    { apply Forall_forall. intros d' Hd'.
      apply (group_member_has_value_column t tables). rewrite <- Hdfs. by right. }
    rewrite add_team_info_columns, (merge_all_columns _ _ _ Hv Hall Hp).
    apply or_iff_compat_l. split.
    + intros (d & Hd & Hc). rewrite Hdfs in Hd.
      apply group_of_elem in Hd as (d0 & ? & -> & ? & ?). simpl in Hc.
      apply list_elem_of_fmap in Hc as (c0 & -> & Hc0). by exists d0, c0.
    + intros (d0 & c0 & Hd0 & He & Ht & Hc0 & ->).
      exists (normalize_columns d0). split.
      * rewrite Hdfs. unfold group_of. apply list_elem_of_fmap_2.
        by apply list_elem_of_filter.
      * simpl. by apply list_elem_of_fmap_2.
Qed.

Lemma merge_trims_and_uppercases_headers_witness :
  "AVG" ∈ columns Sample.merged_batting
  ↔ "AVG" ∈ ["TEAM"; "CITY_STATE"; "STATS_URL"]
    ∨ ∃ d0 c0, d0 ∈ [Sample.batting_1; Sample.batting_2] ∧ df_empty d0 = false
               ∧ _determine_table_type (columns d0) = Some batting
               ∧ c0 ∈ columns d0 ∧ "AVG" = strip_upper c0.
Proof.
  apply (proj2 merge_trims_and_uppercases_headers
           [Sample.batting_1; Sample.batting_2] "Riders" "/riders" "Camden, DE"
           [(batting, Sample.merged_batting)] batting
           [normalize_columns Sample.batting_1; normalize_columns Sample.batting_2]
           Sample.merged_batting).
  - vm_compute. reflexivity.
  - vm_compute. left.
  - left.
  - simpl. split; [|split; [constructor|exact I]].
    constructor; [|constructor]. unfold share_only_keys.
    apply (bool_decide_unpack _). vm_compute. exact I.
Defined.

(** * Further properties *)

(** ** Classifier *)

Lemma count_present_mono l hs hs' :
  (∀ x, x ∈ l → x ∈ strip_upper <$> hs → x ∈ strip_upper <$> hs') →
  Spec.count_present l hs ≤ Spec.count_present l hs'.
Proof.
  unfold Spec.count_present. induction l as [|a l IH]; intros H; [done|].
  rewrite !filter_cons.
  assert (IH' := IH (λ x Hx, H x (list_elem_of_further _ _ _ Hx))).
  destruct (decide (a ∈ strip_upper <$> hs)) as [Ha|Ha].
  - rewrite decide_True by (apply H; [left|done]). simpl. lia.
  - case_decide; simpl; lia.
Qed.

Lemma at_least_mono k l hs hs' :
  (∀ x, x ∈ l → x ∈ strip_upper <$> hs → x ∈ strip_upper <$> hs') →
  Spec.at_least k l hs = true → Spec.at_least k l hs' = true.
Proof.
  intros H. unfold Spec.at_least. rewrite !Nat.leb_le.
  pose proof (count_present_mono l hs hs' H). lia.
Qed.

(** When every indicator among the headers [hs] is among the headers [hs'],
    each category predicate that holds on [hs] holds on [hs']. *)
Lemma predicates_mono hs hs' :
  (∀ x, x ∈ all_indicators → x ∈ strip_upper <$> hs → x ∈ strip_upper <$> hs') →
  (Spec.is_pitching hs = true → Spec.is_pitching hs' = true)
  ∧ (Spec.is_fielding hs = true → Spec.is_fielding hs' = true)
  ∧ (Spec.is_baserunning hs = true → Spec.is_baserunning hs' = true)
  ∧ (Spec.is_batting hs = true → Spec.is_batting hs' = true).
Proof.
  intros H.
  assert (Hm : ∀ k l, l ⊆ all_indicators →
            Spec.at_least k l hs = true → Spec.at_least k l hs' = true).
  { intros k l Hl. apply at_least_mono. intros x Hx. apply H, Hl, Hx. }
  assert (Hsub : ∀ l : list string,
            bool_decide (Forall (λ x, x ∈ all_indicators) l) = true →
            l ⊆ all_indicators).
  { intros l Hl x Hx. apply bool_decide_eq_true in Hl.
    rewrite Forall_forall in Hl. auto. }
  unfold Spec.is_pitching, Spec.is_fielding, Spec.is_baserunning, Spec.is_batting.
  rewrite !orb_true_iff, !andb_true_iff.
  split_and!; intros Hp;
    repeat match goal with
           | Hp : _ ∨ _ |- _ => destruct Hp as [Hp|Hp]
           | Hp : _ ∧ _ |- _ => destruct Hp as [? Hp]
           end;
    repeat match goal with
           | Hp : Spec.at_least _ _ hs = true |- _ =>
               apply Hm in Hp; [|apply Hsub; by vm_compute]
           end;
    tauto.
Qed.

Lemma classify_mono hs hs' :
  (∀ x, x ∈ all_indicators → x ∈ strip_upper <$> hs → x ∈ strip_upper <$> hs') →
  (_determine_table_type hs = Some pitching → _determine_table_type hs' = Some pitching)
  ∧ (_determine_table_type hs ≠ None → _determine_table_type hs' ≠ None).
Proof.
  intros H. destruct (predicates_mono hs hs' H) as (Hp & Hf & Hr & Hb).
  rewrite !determine_table_type_spec.
  unfold Spec.classify, Spec.rules, Spec.first_match.
  destruct (Spec.is_pitching hs); [rewrite Hp by done; done|].
  destruct (Spec.is_fielding hs).
  { rewrite Hf by done. split; [done|]. intros _. by destruct (Spec.is_pitching hs'). }
  destruct (Spec.is_baserunning hs).
  { rewrite Hr by done. split; [done|]. intros _.
    by destruct (Spec.is_pitching hs'), (Spec.is_fielding hs'). }
  destruct (Spec.is_batting hs); [|done].
  rewrite Hb by done. split; [done|]. intros _.
  by destruct (Spec.is_pitching hs'), (Spec.is_fielding hs'),
       (Spec.is_baserunning hs').
Qed.

Lemma count_present_set l hs hs' :
  (list_to_set (strip_upper <$> hs) : gset string) = list_to_set (strip_upper <$> hs') →
  Spec.count_present l hs = Spec.count_present l hs'.
Proof.
  intros Hset.
  assert (H : ∀ a b, (list_to_set (strip_upper <$> a) : gset string)
                     = list_to_set (strip_upper <$> b) →
              Spec.count_present l a ≤ Spec.count_present l b).
  { intros a b Hab. apply count_present_mono. intros x _ Hx.
    apply (elem_of_list_to_set (C:=gset string)).
    rewrite <- Hab. by apply elem_of_list_to_set. }
  apply Nat.le_antisymm; by apply H.
Qed.

(** X1: the classification depends on the headers only through the set of
    their trimmed, uppercased forms: repeating a header or writing it in
    another letter case changes nothing. *)
Theorem determine_table_type_header_set (hs hs' : list string) :
  (list_to_set (strip_upper <$> hs) : gset string) = list_to_set (strip_upper <$> hs') →
  _determine_table_type hs = _determine_table_type hs'.
Proof.
  intros Hset. rewrite !determine_table_type_spec.
  unfold Spec.classify, Spec.rules, Spec.first_match, Spec.is_pitching,
    Spec.is_fielding, Spec.is_baserunning, Spec.is_batting, Spec.at_least.
  by rewrite !(count_present_set _ hs hs' Hset).
Qed.

Lemma determine_table_type_header_set_witness :
  _determine_table_type ["era"; "W"; "ERA "; "w"] = _determine_table_type ["W"; "ERA"].
Proof.
  apply (determine_table_type_header_set ["era"; "W"; "ERA "; "w"] ["W"; "ERA"]).
  by vm_compute.
Defined.

(** X2: the relabelling the merger applies to a classified frame (trimming
    and uppercasing every label) does not change its classification. *)
Theorem determine_table_type_relabel (hs : list string) :
  _determine_table_type (strip_upper <$> hs) = _determine_table_type hs.
Proof.
  rewrite !determine_table_type_spec.
  assert (Hc : ∀ l, Spec.count_present l (strip_upper <$> hs) = Spec.count_present l hs).
  { intros l. unfold Spec.count_present.
    replace (strip_upper <$> (strip_upper <$> hs)) with (strip_upper <$> hs); [done|].
    rewrite <- list_fmap_compose. apply list_fmap_ext.
    intros i h _. symmetry. apply strip_upper_idem. }
  unfold Spec.classify, Spec.rules, Spec.first_match, Spec.is_pitching,
    Spec.is_fielding, Spec.is_baserunning, Spec.is_batting, Spec.at_least.
  by rewrite !Hc.
Qed.

(** X3: pitching has priority and its thresholds are lower bounds: a header
    row classified as pitching stays pitching when headers are added. *)
Theorem pitching_survives_added_headers (hs hs' : list string) :
  hs ⊆ hs' →
  _determine_table_type hs = Some pitching →
  _determine_table_type hs' = Some pitching.
Proof.
  intros Hsub. apply classify_mono. intros x _ (h & -> & Hh)%list_elem_of_fmap.
  apply list_elem_of_fmap_2, Hsub, Hh.
Qed.

Lemma pitching_survives_added_headers_witness :
  _determine_table_type ["AVG"; "AB"; "RBI"; "H"; "R"; "BB"] = Some pitching.
Proof.
  apply (pitching_survives_added_headers ["H"; "R"; "BB"]).
  - apply (bool_decide_unpack _). by vm_compute.
  - by vm_compute.
Defined.

(** X4: a frame the pitching sub-classifier recognizes (all labels of the
    basic, the advanced or the additional set are present) is a pitching
    table for the table classifier. *)
Theorem identified_pitching_is_pitching (cols : list string) (kind : pitching_kind) :
  _identify_pitching_table_type cols = Some kind →
  _determine_table_type cols = Some pitching.
Proof.
  unfold _identify_pitching_table_type, _determine_table_type.
  set (X := list_to_set (strip_upper <$> cols) : gset string).
  intros Hk.
  assert (Hsize : ∀ S : gset string, S ⊆ X → size (S ∩ X) = size S).
  { intros S HS. f_equal. set_solver. }
  destruct (decide (strip_upper <$> cols = [])) as [Hnil|Hnil].
  { exfalso. apply fmap_nil_inv in Hnil. subst cols X. vm_compute in Hk. done. }
  rewrite (bool_decide_eq_false_2 _ Hnil).
  destruct (decide (pitching_basic ⊆ X)) as [H1|H1].
  { rewrite (Hsize _ H1). by vm_compute. }
  destruct (decide (pitching_advanced ⊆ X)) as [H2|H2].
  { rewrite (Hsize _ H2).
    replace (3 <=? size pitching_advanced)%nat with true by (by vm_compute).
    by rewrite orb_true_r. }
  destruct (decide (pitching_additional ⊆ X)) as [H3|H3].
  { rewrite (Hsize _ H3).
    replace (2 <=? size pitching_additional)%nat with true by (by vm_compute).
    by rewrite orb_true_r. }
  by rewrite !bool_decide_eq_false_2 in Hk by done.
Qed.

Lemma identified_pitching_is_pitching_witness :
  _determine_table_type ["#"; "Athlete Name"; "OBA"; "WP"; "HBP"; "BK"] = Some pitching.
Proof.
  apply (identified_pitching_is_pitching _ additional). by vm_compute.
Defined.

(** The synonym table maps no indicator to another label. *)
Lemma indicators_fixed_by_normalizer :
  Forall (λ x, normalize_header x = x ∧ strip_upper x = x) all_indicators.
Proof. apply (bool_decide_unpack _). by vm_compute. Qed.

(** X5: normalizing the headers with the synonym table before classifying
    never loses a table: a classified header row stays classified, and a
    pitching row stays pitching.  The category can change, though: a
    batting row whose hits, runs and walks are spelled out becomes a
    pitching row. *)
Theorem normalizing_keeps_classified :
  (∀ hs, _determine_table_type hs ≠ None →
         _determine_table_type (_normalize_headers hs) ≠ None)
  ∧ (∀ hs, _determine_table_type hs = Some pitching →
           _determine_table_type (_normalize_headers hs) = Some pitching)
  ∧ _determine_table_type ["AVG"; "AB"; "Hits"; "Runs Scored"; "Walks"] = Some batting
  ∧ _determine_table_type
      (_normalize_headers ["AVG"; "AB"; "Hits"; "Runs Scored"; "Walks"])
    = Some pitching.
Proof.
  assert (H : ∀ hs x, x ∈ all_indicators → x ∈ strip_upper <$> hs →
                x ∈ strip_upper <$> _normalize_headers hs).
  { intros hs x Hx (h & -> & Hh)%list_elem_of_fmap.
    pose proof indicators_fixed_by_normalizer as HF.
    rewrite Forall_forall in HF. destruct (HF _ Hx) as [Hn Hs].
    apply list_elem_of_fmap. exists (normalize_header h). split.
    - unfold normalize_header in *. rewrite Hs in Hn. by rewrite Hn.
    - by apply list_elem_of_fmap_2. }
  split_and!.
  - intros hs. apply classify_mono, H.
  - intros hs. apply classify_mono, H.
  - by vm_compute.
  - by vm_compute.
Qed.

Lemma normalizing_keeps_classified_witness :
  _determine_table_type (_normalize_headers ["sb"; "Games Played"]) ≠ None
  ∧ _determine_table_type
      (_normalize_headers ["Earned Run Average"; "ERA"; "W"; "L"])
    = Some pitching.
Proof.
  split.
  - apply (proj1 normalizing_keeps_classified ["sb"; "Games Played"]).
    intros H. vm_compute in H. discriminate H.
  - apply (proj1 (proj2 normalizing_keeps_classified)). by vm_compute.
Defined.

(** ** Row extraction *)

Lemma length_pad_row k row_data :
  length row_data ≤ k → length (pad_row k row_data) = k.
Proof.
  intros H. unfold pad_row. rewrite length_app, length_fmap, length_replicate. lia.
Qed.

Lemma max_list_elem_le (l : list nat) n : n ∈ l → n ≤ max_list l.
Proof.
  induction l as [|m l IH]; [by intros ?%elem_of_nil|].
  intros [->|Hn]%elem_of_cons; simpl; [lia|]. specialize (IH Hn). lia.
Qed.

(** What the extraction returns, case by case. *)
Lemma extract_table_data_cases table :
  let headers := match table with header_row :: _ => header_row | [] => [] end in
  let data := filter (λ row_data, keeps_row row_data = true) (tail table) in
  (headers ≠ [] ∧ data ≠ [] ∧ max_list (length <$> data) = length headers
   ∧ _extract_table_data table = mkFrame headers (pad_row (length headers) <$> data))
  ∨ (¬ (headers ≠ [] ∧ data ≠ [] ∧ max_list (length <$> data) = length headers)
     ∧ _extract_table_data table = empty_frame).
Proof.
  intros headers data. unfold _extract_table_data. fold headers. fold data.
  destruct (decide (headers = [])) as [Hh|Hh].
  { right. rewrite bool_decide_eq_false_2 by (intros Hn; by apply Hn).
    split; [|done]. tauto. }
  destruct (decide (data = [])) as [Hd|Hd].
  { right. rewrite (bool_decide_eq_false_2 (data ≠ [])) by (intros Hn; by apply Hn).
    rewrite andb_false_r. split; [|done]. tauto. }
  rewrite !bool_decide_eq_true_2 by done. simpl.
  unfold make_frame. rewrite (bool_decide_eq_false_2 (data = [])) by done.
  case_bool_decide as Hk.
  - left. by rewrite Hk.
  - right. split; [|done]. tauto.
Qed.

Lemma extract_wf table : wf_frame (_extract_table_data table).
Proof.
  destruct (extract_table_data_cases table) as [(_ & _ & Hk & ->)|[_ ->]];
    [|by constructor].
  unfold wf_frame. simpl. apply Forall_fmap, Forall_forall. intros row Hrow. simpl.
  apply length_pad_row. rewrite <- Hk.
  apply max_list_elem_le, list_elem_of_fmap_2, Hrow.
Qed.

(** X6: the frame the extraction returns is rectangular: every row has one
    cell for every header, short rows being filled with missing values. *)
Theorem extract_table_data_rectangular (table : Table) :
  wf_frame (_extract_table_data table).
Proof.
  destruct (extract_table_data_cases table) as [(_ & _ & Hk & Heq)|[_ Heq]];
    rewrite Heq; [|by constructor].
  unfold wf_frame. cbn [rows columns].
  apply Forall_fmap, Forall_forall. intros row_data Hrow. cbn.
  apply length_pad_row. rewrite <- Hk.
  by apply max_list_elem_le, list_elem_of_fmap_2.
Qed.

(** X7: the extraction yields a non-empty frame exactly when the header row
    has a cell, some data row passes the row filter, and the longest such
    row has as many cells as the header row; the frame then has the header
    cells as labels, unchanged, and the kept rows in the order of the
    table. *)
Theorem extract_table_data_nonempty (header_row : list string) (body : list (list string)) :
  let data := filter (λ row_data, keeps_row row_data = true) body in
  (df_empty (_extract_table_data (header_row :: body)) = false
   ↔ header_row ≠ [] ∧ data ≠ [] ∧ max_list (length <$> data) = length header_row)
  ∧ (df_empty (_extract_table_data (header_row :: body)) = false →
     _extract_table_data (header_row :: body)
     = mkFrame header_row (pad_row (length header_row) <$> data)).
Proof.
  intros data.
  destruct (extract_table_data_cases (header_row :: body))
    as [(Hh & Hd & Hk & Heq)|[Hno Heq]]; cbn [tail] in *; rewrite Heq.
  - split; [|done]. split; [done|]. intros _. unfold df_empty. simpl.
    rewrite !bool_decide_eq_false_2; [done| |done].
    intros Hnil%fmap_nil_inv. done.
  - split; [|done]. split; [done|]. intros H. exfalso. by apply Hno.
Qed.

Lemma extract_table_data_nonempty_witness :
  _extract_table_data [["#"; "Athlete Name"; "AVG"]; ["7"; "Al Ray"]; ["Totals"];
                       ["8"; "Bo Lee"; ".300"]]
  = mkFrame ["#"; "Athlete Name"; "AVG"]
      (pad_row 3 <$> filter (λ row_data, keeps_row row_data = true)
                       [["7"; "Al Ray"]; ["Totals"]; ["8"; "Bo Lee"; ".300"]]).
Proof.
  apply (proj2 (extract_table_data_nonempty ["#"; "Athlete Name"; "AVG"]
                  [["7"; "Al Ray"]; ["Totals"]; ["8"; "Bo Lee"; ".300"]])).
  by vm_compute.
Defined.

(** X8: one data row that passes the row filter and has more cells than the
    header row makes the extraction return the empty frame: the whole
    table is lost, not only the row. *)
Theorem extract_table_data_wide_row (header_row : list string)
    (body : list (list string)) (row_data : list string) :
  row_data ∈ body → keeps_row row_data = true →
  length header_row < length row_data →
  _extract_table_data (header_row :: body) = empty_frame.
Proof.
  intros Hin Hkeep Hlen.
  destruct (extract_table_data_cases (header_row :: body))
    as [(_ & _ & Hk & _)|[_ Heq]]; [|done].
  simpl in Hk. exfalso.
  assert (length row_data ≤ length header_row); [|lia].
  rewrite <- Hk. apply max_list_elem_le, list_elem_of_fmap_2.
  by apply list_elem_of_filter.
Qed.

Lemma extract_table_data_wide_row_witness :
  _extract_table_data [["#"; "Athlete Name"]; ["7"; "Al Ray"]; ["8"; "Bo Lee"; ".300"]]
  = empty_frame.
Proof.
  apply (extract_table_data_wide_row _ _ ["8"; "Bo Lee"; ".300"]).
  - right. left.
  - reflexivity.
  - simpl. lia.
Defined.

(** ** Category merger *)

(** X9: frames that are empty or that the classifier does not recognize
    have no influence on the merger: dropping them beforehand gives the
    same result, error or tables. *)
Theorem merge_ignores_unclassified
    (tables : list DataFrame) (team_name team_url city_state : string) :
  _merge_tables_by_type
    (filter (λ df, df_empty df = false ∧ _determine_table_type (columns df) ≠ None)
       tables) team_name team_url city_state
  = _merge_tables_by_type tables team_name team_url city_state.
Proof.
  unfold _merge_tables_by_type. rewrite !group_tables_eq. f_equal.
  apply list_fmap_ext. intros i t _. f_equal. unfold group_of. f_equal.
  rewrite list_filter_filter. apply list_filter_iff. intros df.
  split; [tauto|]. intros [? Ht]. rewrite Ht. done.
Qed.

Lemma merge_groups_types groups team_name team_url city_state merged :
  merge_groups groups team_name team_url city_state = Ok merged →
  merged.*1 = (filter (λ g, g.2 ≠ []) groups).*1.
Proof.
  revert merged. induction groups as [|[t dfs] groups IH]; intros merged; simpl.
  - by intros [= <-].
  - destruct (merge_group dfs _ _ _) as [o|] eqn:Eg; [|done]. simpl.
    destruct (merge_groups groups _ _ _) as [merged'|]; [|done]. simpl.
    intros [= <-]. rewrite filter_cons. simpl.
    destruct dfs as [|first rest]; simpl in Eg.
    + injection Eg as <-. rewrite decide_False by (intros H; by apply H).
      by apply IH.
    + destruct (merge_all first rest); [|done]. injection Eg as <-.
      rewrite decide_True by done. simpl. f_equal. by apply IH.
Qed.

Lemma filter_groups_types (f : table_type → list DataFrame) (ts : list table_type) :
  (filter (λ g, g.2 ≠ []) ((λ t, (t, f t)) <$> ts)).*1 = filter (λ t, f t ≠ []) ts.
Proof.
  induction ts as [|t ts IH]; [done|].
  rewrite fmap_cons, (filter_cons _ (t, f t)), (filter_cons _ t). cbn [snd].
  destruct (decide (f t ≠ [])); [rewrite fmap_cons; cbn [fst]|]; by rewrite IH.
Qed.

(** X10: when the merger succeeds, its result has one table for each
    category that some non-empty input frame is classified into, and no
    other; the categories come in the order batting, pitching, fielding,
    baserunning. *)
Theorem merged_categories
    (tables : list DataFrame) (team_name team_url city_state : string)
    (merged : list (table_type * DataFrame)) :
  _merge_tables_by_type tables team_name team_url city_state = Ok merged →
  merged.*1 = filter (λ t, group_of t tables ≠ [])
                [batting; pitching; fielding; baserunning]
  ∧ ∀ t, t ∈ merged.*1
         ↔ ∃ df, df ∈ tables ∧ df_empty df = false
                 ∧ _determine_table_type (columns df) = Some t.
Proof.
  intros Hm. unfold _merge_tables_by_type in Hm.
  apply merge_groups_types in Hm. rewrite group_tables_eq, filter_groups_types in Hm.
  split; [done|]. intros t. rewrite Hm, list_elem_of_filter. split.
  - intros [Hne _]. destruct (group_of t tables) as [|d ?] eqn:E; [done|].
    assert (Hd : d ∈ group_of t tables) by (rewrite E; left).
    apply group_of_elem in Hd as (d0 & ? & _ & ? & ?). by exists d0.
  - intros (df & Hin & He & Ht). split; [|destruct t; set_solver].
    intros Hnil.
    assert (Hd : normalize_columns df ∈ group_of t tables).
    { unfold group_of. apply list_elem_of_fmap_2. by apply list_elem_of_filter. }
    rewrite Hnil in Hd. by apply elem_of_nil in Hd.
Qed.

Lemma merged_categories_witness :
  [(batting, Sample.merged_batting)].*1
  = filter (λ t, group_of t [Sample.batting_1; Sample.batting_2] ≠ [])
      [batting; pitching; fielding; baserunning].
Proof.
  apply (merged_categories [Sample.batting_1; Sample.batting_2]
           "Riders" "/riders" "Camden, DE").
  by vm_compute.
Defined.

(** X11: for rectangular input frames, every table the merger returns is
    rectangular and has at least one row. *)
Theorem merged_tables_nonempty
    (tables : list DataFrame) (team_name team_url city_state : string)
    (merged : list (table_type * DataFrame)) (t : table_type) (df : DataFrame) :
  Forall wf_frame tables →
  _merge_tables_by_type tables team_name team_url city_state = Ok merged →
  (t, df) ∈ merged →
  wf_frame df ∧ df_empty df = false.
Proof.
  intros Hwf Hm Hdf. unfold _merge_tables_by_type in Hm.
  destruct (merge_groups_ok_elem _ _ _ _ _ _ _ Hm Hdf)
    as (first & rest & m & Hg & Hall & ->).
  apply group_tables_elem in Hg.
  assert (Hf : first ∈ group_of t tables) by (rewrite <- Hg; left).
  assert (Hv : Forall has_value_column rest).
  { apply Forall_forall. intros d Hd.
    apply (group_member_has_value_column t tables). rewrite <- Hg. by right. }
  apply group_of_elem in Hf as (d0 & Hd0 & -> & He & _).
  assert (Hwf0 : wf_frame (normalize_columns d0)).
  { apply normalize_columns_wf. rewrite Forall_forall in Hwf. auto. }
  pose proof (merge_all_wf _ _ _ Hwf0 Hall) as Hwfm.
  split.
  - unfold add_team_info. by do 3 apply set_column_wf.
  - unfold df_empty in He |- *. apply orb_false_iff in He as [_ Hrows].
    apply bool_decide_eq_false in Hrows.
    destruct (rows d0) as [|r rs] eqn:Er; [done|].
    destruct (merge_all_keeps_keys _ _ _ Hv Hwf0 Hall (normalize_columns d0) r)
      as (row1 & H1 & _); [left|simpl; rewrite Er; left|].
    destruct (add_team_info_keeps_keys team_name team_url city_state m row1)
      as (row & H & _); [done|done|].
    apply orb_false_iff. split; apply bool_decide_eq_false.
    + intros Hnil.
      assert (Hc : "TEAM" ∈ columns (add_team_info team_name team_url city_state m)).
      { apply add_team_info_columns. left. set_solver. }
      rewrite Hnil in Hc. by apply elem_of_nil in Hc.
    + intros Hnil. rewrite Hnil in H. by apply elem_of_nil in H.
Qed.

Lemma merged_tables_nonempty_witness :
  wf_frame Sample.merged_batting ∧ df_empty Sample.merged_batting = false.
Proof.
  apply (merged_tables_nonempty [Sample.batting_1; Sample.batting_2]
           "Riders" "/riders" "Camden, DE" [(batting, Sample.merged_batting)] batting).
  - repeat constructor.
  - by vm_compute.
  - left.
Defined.

(** X12: the merger raises only while joining: when no category receives
    more than one frame, it succeeds whatever the labels of the frames are,
    and the table of a category is its frame, relabelled, with the three
    team columns. *)
Theorem merge_single_frames_succeeds
    (tables : list DataFrame) (team_name team_url city_state : string) :
  (∀ t, length (group_of t tables) ≤ 1) →
  _merge_tables_by_type tables team_name team_url city_state
  = Ok (omap (λ t, (λ d, (t, add_team_info team_name team_url city_state d))
                     <$> head (group_of t tables))
          [batting; pitching; fielding; baserunning]).
Proof.
  intros Hlen. unfold _merge_tables_by_type. rewrite group_tables_eq.
  assert (Hg : ∀ t, merge_group (group_of t tables) team_name team_url city_state
                    = Ok (add_team_info team_name team_url city_state
                            <$> head (group_of t tables))).
  { intros t. specialize (Hlen t).
    destruct (group_of t tables) as [|d [|d' ?]]; simpl in *; [done|done|lia]. }
  cbn [fmap list_fmap merge_groups]. rewrite !Hg. cbn [mbind result_bind omap list_omap].
  by destruct (head (group_of batting tables)), (head (group_of pitching tables)),
       (head (group_of fielding tables)), (head (group_of baserunning tables)).
Qed.

Lemma merge_single_frames_succeeds_witness :
  _merge_tables_by_type [Sample.batting_3] "Riders" "/riders" "Camden, DE"
  = Ok (omap (λ t, (λ d, (t, add_team_info "Riders" "/riders" "Camden, DE" d))
                     <$> head (group_of t [Sample.batting_3]))
          [batting; pitching; fielding; baserunning]).
Proof.
  apply (merge_single_frames_succeeds [Sample.batting_3]).
  intros t. destruct t; vm_compute; lia.
Defined.

Lemma positions_length_one cols k :
  length (positions cols k) = 1 ↔ ∃ i, positions cols k = [i].
Proof.
  split; [|by intros [i ->]].
  destruct (positions cols k) as [|i [|? ?]]; simpl; try lia. intros _. by exists i.
Qed.

Lemma merge_step_ok_unique acc d m :
  has_value_column d → merge_step acc d = Ok m →
  unique_key_columns acc ∧ unique_key_columns d.
Proof.
  intros Hv Hm.
  destruct (merge_step_inv _ _ _ Hv Hm)
    as (i1 & i2 & a1 & a2 & Hi1 & Hi2 & Ha1 & Ha2 & _).
  split; intros k Hk; unfold key_columns in Hk;
    apply elem_of_cons in Hk as [->|Hk];
    try (apply list_elem_of_singleton in Hk as ->);
    apply positions_length_one; eauto.
Qed.

Lemma merge_all_ok_unique acc dfs m :
  Forall has_value_column dfs → merge_all acc dfs = Ok m →
  Forall unique_key_columns dfs ∧ (dfs ≠ [] → unique_key_columns acc).
Proof.
  intros Hv. revert acc. induction Hv as [|d dfs Hd Hv IH]; intros acc; simpl.
  - done.
  - destruct (merge_step acc d) as [m1|] eqn:Es; [|done]. simpl.
    intros Hm. apply merge_step_ok_unique in Es as [? ?]; [|done].
    apply IH in Hm as [? _]. split; [by constructor|done].
Qed.

(** X13: joining needs each key to label exactly one column: when the
    merger succeeds, every frame of a group of two or more frames has
    exactly one column "#" and exactly one column "ATHLETE NAME". *)
Theorem merge_success_unique_keys
    (tables : list DataFrame) (team_name team_url city_state : string)
    (merged : list (table_type * DataFrame)) (t : table_type)
    (dfs : list DataFrame) (df : DataFrame) :
  _merge_tables_by_type tables team_name team_url city_state = Ok merged →
  (t, dfs) ∈ group_tables tables →
  2 ≤ length dfs →
  df ∈ dfs →
  unique_key_columns df.
Proof.
  intros Hm Hg Hlen Hdf. unfold _merge_tables_by_type in Hm.
  assert (Hv : Forall has_value_column dfs).
  { apply group_tables_elem in Hg as ->. apply Forall_forall.
    intros d. apply group_member_has_value_column. }
  destruct dfs as [|first rest]; [simpl in Hlen; lia|].
  destruct (merge_groups_ok_group _ _ _ _ _ _ _ _ Hm Hg) as (m & Hall & _).
  apply Forall_cons in Hv as [_ Hv].
  apply merge_all_ok_unique in Hall as [Hrest Hfirst]; [|done].
  apply elem_of_cons in Hdf as [->|Hdf].
  - apply Hfirst. destruct rest; [simpl in Hlen; lia|done].
  - rewrite Forall_forall in Hrest. by apply Hrest.
Qed.

Lemma merge_success_unique_keys_witness :
  unique_key_columns (normalize_columns Sample.batting_2).
Proof.
  apply (merge_success_unique_keys [Sample.batting_1; Sample.batting_2]
           "Riders" "/riders" "Camden, DE" [(batting, Sample.merged_batting)] batting
           [normalize_columns Sample.batting_1; normalize_columns Sample.batting_2]).
  - by vm_compute.
  - vm_compute. left.
  - simpl. lia.
  - right. left.
Defined.

(** *** A sufficient condition for the merger to succeed *)

Lemma suffix_dups_same l seen : Pandas.suffix_dups l l seen seen = [].
Proof.
  revert seen. induction l as [|c l IH]; intros seen; simpl; [done|].
  rewrite IH. by destruct (bool_decide (c ∈ seen)).
Qed.

Lemma value_labels_no_value df :
  ¬ has_value_column df → value_labels df = [].
Proof.
  unfold has_value_column, value_labels, value_positions, value_columns.
  intros H. apply dec_stable in H. by rewrite H.
Qed.

Lemma select_with_unique_keys d a1 a2 :
  positions (columns d) "#" = [a1] →
  positions (columns d) "ATHLETE NAME" = [a2] →
  df_select d (key_columns ++ value_columns d)
  = Ok (mkFrame ("#" :: "ATHLETE NAME" :: value_labels d)
          ((λ row, cell_at row a1 :: cell_at row a2 :: value_cells d row) <$> rows d)).
Proof.
  intros H1 H2. unfold df_select.
  assert (Hin : ∀ l, l ∈ key_columns ++ value_columns d → l ∈ columns d).
  { intros l [Hl|Hl]%elem_of_app.
    - unfold key_columns in Hl. apply elem_of_cons in Hl as [->|Hl];
        [|apply list_elem_of_singleton in Hl as ->].
      + assert (Ha : a1 ∈ positions (columns d) "#") by (rewrite H1; left).
        apply elem_of_positions in Ha. by eapply list_elem_of_lookup_2.
      + assert (Ha : a2 ∈ positions (columns d) "ATHLETE NAME") by (rewrite H2; left).
        apply elem_of_positions in Ha. by eapply list_elem_of_lookup_2.
    - by apply list_elem_of_filter in Hl as [_ ?]. }
  assert (Hmiss : filter (λ l, l ∉ columns d) (key_columns ++ value_columns d) = []).
  { destruct (filter _ _) as [|l ?] eqn:E; [done|]. exfalso.
    assert (Hl : l ∈ filter (λ l, l ∉ columns d) (key_columns ++ value_columns d))
      by (rewrite E; left).
    apply list_elem_of_filter in Hl as [Hn Hl]. by apply Hn, Hin. }
  rewrite Hmiss. rewrite bool_decide_eq_false_2 by (intros Hn; by apply Hn).
  assert (Hidx : (key_columns ++ value_columns d) ≫= positions (columns d)
                 = a1 :: a2 :: value_positions d).
  { rewrite bind_app. unfold key_columns. rewrite !bind_cons.
    change (@nil string ≫= positions (columns d)) with (@nil nat).
    by rewrite H1, H2. }
  rewrite Hidx. do 2 f_equal. rewrite !fmap_cons. fold (value_labels d).
  f_equal; [apply label_at_position; rewrite H1; left|].
  f_equal. apply label_at_position. rewrite H2. left.
Qed.

Lemma keys_first_positions (vl : list string) :
  (∀ c, c ∈ vl → c ∉ key_columns) →
  positions ("#" :: "ATHLETE NAME" :: vl) "#" = [0]
  ∧ positions ("#" :: "ATHLETE NAME" :: vl) "ATHLETE NAME" = [1].
Proof.
  intros Hv. split; apply positions_singleton; try done.
  - intros [|[|j]] Hj; simpl in Hj; [done|done|]. exfalso.
    eapply Hv; [by eapply list_elem_of_lookup_2|]. unfold key_columns. set_solver.
  - intros [|[|j]] Hj; simpl in Hj; [done|done|]. exfalso.
    eapply Hv; [by eapply list_elem_of_lookup_2|]. unfold key_columns. set_solver.
Qed.

Lemma merge_step_succeeds acc d :
  unique_key_columns acc → unique_key_columns d → share_only_keys acc d →
  ∃ m, merge_step acc d = Ok m ∧ columns m = columns acc ++ value_labels d.
Proof.
  intros Hua Hud Hs. unfold merge_step. fold (value_columns d).
  destruct (decide (value_columns d ≠ [])) as [Hv|Hv].
  2:{ rewrite bool_decide_eq_false_2 by done. exists acc. split; [done|].
      by rewrite (value_labels_no_value d Hv), app_nil_r. }
  rewrite bool_decide_eq_true_2 by done.
  destruct (proj1 (positions_length_one _ _) (Hua "#" ltac:(set_solver))) as [i1 Hi1].
  destruct (proj1 (positions_length_one _ _) (Hua "ATHLETE NAME" ltac:(set_solver)))
    as [i2 Hi2].
  destruct (proj1 (positions_length_one _ _) (Hud "#" ltac:(set_solver))) as [a1 Ha1].
  destruct (proj1 (positions_length_one _ _) (Hud "ATHLETE NAME" ltac:(set_solver)))
    as [a2 Ha2].
  rewrite (select_with_unique_keys d a1 a2 Ha1 Ha2). cbn [mbind result_bind].
  destruct (keys_first_positions (value_labels d)) as [Hk1 Hk2].
  { by intros c [_ ?]%value_labels_elem. }
  unfold Pandas.merge_outer, key_columns. cbn [Pandas.key_positions].
  unfold Pandas.check_key. cbn [columns]. rewrite Hk1, Hk2, Hi1, Hi2.
  cbn [mbind result_bind mret result_ret fmap list_fmap fst snd rows].
  rewrite drop_positions_01.
  unfold share_only_keys in Hs. rewrite Forall_forall in Hs.
  rewrite (fmap_id_on _ (columns acc)), (fmap_id_on _ (value_labels d)).
  - rewrite !suffix_dups_same. cbn [app].
    rewrite bool_decide_eq_false_2 by (intros Hn; by apply Hn).
    eexists. split; [done|]. done.
  - intros c Hc. rewrite bool_decide_eq_false_2; [done|].
    intros Hacc. apply value_labels_elem in Hc as [Hd Hk]. by apply Hk, Hs.
  - intros c Hc. rewrite bool_decide_eq_false_2; [done|].
    intros [Hd Hk]%value_labels_elem. by apply Hk, Hs.
Qed.

Lemma merge_all_succeeds acc dfs :
  unique_key_columns acc → Forall unique_key_columns dfs →
  pairwise_only_keys (acc :: dfs) →
  ∃ m, merge_all acc dfs = Ok m.
Proof.
  intros Hua Hud. revert acc Hua. induction Hud as [|d dfs Hd Hud IH]; intros acc Hua.
  - intros _. by exists acc.
  - intros (Hacc & Hds & Hrest). apply Forall_cons in Hacc as [Hacc0 Hacc].
    destruct (merge_step_succeeds acc d Hua Hd Hacc0) as (m1 & Hm1 & Hcols).
    simpl. rewrite Hm1. simpl. apply IH.
    + intros k Hk. rewrite Hcols, positions_app, (positions_not_elem (value_labels d)).
      * rewrite fmap_nil, app_nil_r. by apply Hua.
      * by intros [_ ?]%value_labels_elem.
    + split; [|done]. apply Forall_forall. intros d' Hd'.
      unfold share_only_keys. apply Forall_forall. intros c Hc Hin.
      rewrite Forall_forall in Hacc, Hds.
      rewrite Hcols in Hc. apply elem_of_app in Hc as [Hc|Hc].
      * specialize (Hacc d' Hd'). unfold share_only_keys in Hacc.
        rewrite Forall_forall in Hacc. by apply Hacc.
      * apply value_labels_elem in Hc as [Hc _].
        specialize (Hds d' Hd'). unfold share_only_keys in Hds.
        rewrite Forall_forall in Hds. by apply Hds.
Qed.

Lemma merge_groups_succeeds groups team_name team_url city_state :
  Forall (λ g, ∃ o, merge_group g.2 team_name team_url city_state = Ok o) groups →
  ∃ merged, merge_groups groups team_name team_url city_state = Ok merged.
Proof.
  induction 1 as [|[t dfs] groups [o Ho] _ [merged IH]]; simpl; [by eexists|].
  simpl in Ho. rewrite Ho, IH. simpl. by eexists.
Qed.

(** X14: the merger succeeds whenever, in each category with two or more
    frames, every frame has exactly one column for each join key and no two
    frames share a label besides the join keys. *)
Theorem merge_succeeds
    (tables : list DataFrame) (team_name team_url city_state : string) :
  (∀ t, 2 ≤ length (group_of t tables) →
        Forall unique_key_columns (group_of t tables)
        ∧ pairwise_only_keys (group_of t tables)) →
  ∃ merged, _merge_tables_by_type tables team_name team_url city_state = Ok merged.
Proof.
  intros H. unfold _merge_tables_by_type. apply merge_groups_succeeds.
  rewrite group_tables_eq. apply Forall_fmap, Forall_forall. intros t _. simpl.
  specialize (H t). destruct (group_of t tables) as [|first [|d rest]]; simpl.
  - by eexists.
  - by eexists.
  - destruct H as [Hu Hp]; [simpl; lia|].
    apply Forall_cons in Hu as [Hu1 Hu].
    destruct (merge_all_succeeds first (d :: rest) Hu1 Hu Hp) as [m Hm].
    simpl in Hm. rewrite Hm. simpl. by eexists.
Qed.

Lemma sample_unique_keys :
  Forall unique_key_columns
    [normalize_columns Sample.batting_1; normalize_columns Sample.batting_2].
Proof.
  repeat constructor; intros k Hk; unfold key_columns in Hk;
    (apply elem_of_cons in Hk as [->|Hk];
     [|apply list_elem_of_singleton in Hk as ->]); reflexivity.
Qed.

Lemma merge_succeeds_witness :
  ∃ merged,
    _merge_tables_by_type [Sample.batting_1; Sample.batting_2]
      "Riders" "/riders" "Camden, DE" = Ok merged.
Proof.
  apply (merge_succeeds [Sample.batting_1; Sample.batting_2]).
  intros t Hlen. destruct t; try (vm_compute in Hlen; lia).
  change (group_of batting [Sample.batting_1; Sample.batting_2])
    with [normalize_columns Sample.batting_1; normalize_columns Sample.batting_2].
  split; [exact sample_unique_keys|].
  simpl. split; [|split; [constructor|exact I]].
  constructor; [|constructor]. unfold share_only_keys.
  apply (bool_decide_unpack _). vm_compute. exact I.
Defined.

(** ** Per-team orchestration *)

Lemma extracted_frames_wf tables : Forall wf_frame (extracted_frames tables).
Proof.
  unfold extracted_frames. apply Forall_forall.
  intros df [_ (table & -> & _)%list_elem_of_fmap]%list_elem_of_filter.
  apply extract_wf.
Qed.

Lemma merge_tables_carry_team tables info merged t df :
  Forall wf_frame tables →
  _merge_tables_by_type tables (school info) (stats_url info) (city_state info)
  = Ok merged →
  (t, df) ∈ merged → carries_team info df.
Proof.
  intros Hwf Hm Hdf row Hrow. unfold _merge_tables_by_type in Hm.
  destruct (merge_groups_ok_elem _ _ _ _ _ _ _ Hm Hdf)
    as (first & rest & m & Hg & Hall & ->).
  apply add_team_info_carries; [|done].
  eapply merge_all_wf; [|exact Hall].
  apply group_tables_elem in Hg.
  assert (Hf : first ∈ group_of t tables) by (rewrite <- Hg; left).
  apply group_of_elem in Hf as (d0 & Hd0 & -> & _).
  apply normalize_columns_wf. rewrite Forall_forall in Hwf. auto.
Qed.


(** What one call of [process_team] does to the files. *)
Lemma process_team_cases str_of_exn info fetched s :
  (∃ reason n,
     process_team str_of_exn info fetched s
     = _save_team_without_stats (school info) (stats_url info) reason n s)
  ∨ (∃ tables merged,
       fetched = Page tables ∧ 7 ≤ length tables
       ∧ _merge_tables_by_type (extracted_frames tables)
           (school info) (stats_url info) (city_state info) = Ok merged
       ∧ process_team str_of_exn info fetched s
         = mkSinks (teams_without_stats s) (stats_files s ++ merged)).
Proof.
  unfold process_team.
  destruct fetched as [| |msg|tables]; try (left; by eauto).
  case_bool_decide; [left; by eauto|].
  destruct (length tables <? 7)%nat eqn:E; [left; by eauto|].
  apply Nat.ltb_ge in E. fold (extracted_frames tables).
  destruct (_merge_tables_by_type _ _ _ _) as [merged|e] eqn:Em; [|left; by eauto].
  right. by exists tables, merged.
Qed.


Lemma process_team_added str_of_exn info fetched s :
  ∃ added,
    stats_files (process_team str_of_exn info fetched s) = stats_files s ++ added
    ∧ ∀ t df, (t, df) ∈ added → carries_team info df.
Proof.
  destruct (process_team_cases str_of_exn info fetched s)
    as [(reason & n & ->)|(tables & merged & _ & _ & Hm & ->)].
  - exists []. split; [by rewrite app_nil_r|]. by intros t df ?%elem_of_nil.
  - exists merged. split; [done|]. intros t df Hdf.
    eapply merge_tables_carry_team; [apply extracted_frames_wf|exact Hm|exact Hdf].
Qed.

(** X16: whatever the page contains, every row of every table that
    [process_team] appends to the statistics files holds the name, the
    city and state and the URL of the team in the columns TEAM, CITY_STATE
    and STATS_URL. *)
Theorem process_team_rows_name_team
    (str_of_exn : exn → string) (info : TeamInfo) (fetched : Fetched) (s : Sinks) :
  ∃ added,
    stats_files (process_team str_of_exn info fetched s) = stats_files s ++ added
    ∧ ∀ t df, (t, df) ∈ added → carries_team info df.
Proof.
  destruct (process_team_cases str_of_exn info fetched s)
    as [(reason & n & Heq)|(tables & merged & _ & _ & Hm & Heq)]; rewrite Heq.
  - exists []. split; [by rewrite app_nil_r|]. by intros t df ?%elem_of_nil.
  - exists merged. split; [done|]. intros t df Hdf.
    apply (merge_tables_carry_team (extracted_frames tables) info merged t);
      [apply extracted_frames_wf|exact Hm|exact Hdf].
Qed.

(** X17: a page with seven or more tables of which none gives a non-empty,
    classified frame leaves no trace: nothing is appended to the statistics
    files, and no line is written to the teams-without-stats file. *)
Theorem process_team_unclassified_page
    (str_of_exn : exn → string) (info : TeamInfo) (tables : list Table) (s : Sinks) :
  7 ≤ length tables →
  (∀ table, table ∈ tables →
     df_empty (_extract_table_data table) = true
     ∨ _determine_table_type (columns (_extract_table_data table)) = None) →
  process_team str_of_exn info (Page tables) s = s.
Proof.
  intros Hlen Hnone. unfold process_team.
  rewrite bool_decide_eq_false_2 by (intros ->; simpl in Hlen; lia).
  apply Nat.ltb_ge in Hlen. rewrite Hlen.
  fold (extracted_frames tables).
  assert (Hg : ∀ t, group_of t (extracted_frames tables) = []).
  { intros t. unfold group_of.
    destruct (filter _ (extracted_frames tables)) as [|df ?] eqn:E; [done|]. exfalso.
    assert (Hdf : df ∈ filter
                    (λ df, df_empty df = false
                           ∧ _determine_table_type (columns df) = Some t)
                    (extracted_frames tables)) by (rewrite E; left).
    apply list_elem_of_filter in Hdf as [[He Ht] Hdf].
    unfold extracted_frames in Hdf.
    apply list_elem_of_filter in Hdf as [_ (table & -> & Hin)%list_elem_of_fmap].
    destruct (Hnone table Hin); congruence. }
  unfold _merge_tables_by_type. rewrite group_tables_eq.
  cbn [fmap list_fmap]. rewrite !Hg. cbn.
  rewrite app_nil_r. by destruct s.
Qed.

Lemma process_team_unclassified_page_witness :
  process_team (λ _, "") Sample.riders
    (Page [[]; [["Schedule"]]; []; []; []; [["Date"; "Opponent"]; ["3/1"; "Dover"]]; []])
    (mkSinks [header_line] [])
  = mkSinks [header_line] [].
Proof.
  apply (process_team_unclassified_page (λ _, "") Sample.riders).
  - simpl. lia.
  - intros table Hin.
    repeat (apply elem_of_cons in Hin as [->|Hin]; [vm_compute; tauto|]).
    by apply elem_of_nil in Hin.
Defined.

Lemma merge_lacking_key_err tables team_name team_url city_state t dfs df :
  (t, dfs) ∈ group_tables tables → 2 ≤ length dfs → df ∈ dfs →
  ¬ has_key_columns df →
  is_err (_merge_tables_by_type tables team_name team_url city_state).
Proof.
  intros Hg Hlen Hdf Hlack. unfold _merge_tables_by_type.
  eapply merge_groups_err; [exact Hg|].
  assert (Hv : Forall has_value_column dfs).
  { apply group_tables_elem in Hg as ->. apply Forall_forall.
    intros d. apply group_member_has_value_column. }
  destruct dfs as [|first rest]; [simpl in Hlen; lia|]. simpl.
  destruct (merge_all first rest) as [m|e] eqn:Em; [|by exists e]. exfalso.
  apply Forall_cons in Hv as [_ Hv].
  apply merge_all_ok_keys in Em as [Hrest Hfirst]; [|done].
  apply Hlack. apply elem_of_cons in Hdf as [->|Hdf].
  - apply Hfirst. destruct rest; [simpl in Hlen; lia|done].
  - rewrite Forall_forall in Hrest. by apply Hrest.
Qed.

(** X18: one frame without a join-key column loses the whole team: when a
    page with seven or more tables has a category with two or more
    extracted frames of which one lacks "#" or "ATHLETE NAME", nothing is
    saved for any category, and the team is reported with a reason that
    starts with "Error: " and with the table count 0. *)
Theorem process_team_key_error
    (str_of_exn : exn → string) (info : TeamInfo) (tables : list Table) (s : Sinks)
    (t : table_type) (dfs : list DataFrame) (df : DataFrame) :
  7 ≤ length tables →
  (t, dfs) ∈ group_tables (extracted_frames tables) →
  2 ≤ length dfs → df ∈ dfs → ¬ has_key_columns df →
  ∃ e, process_team str_of_exn info (Page tables) s
       = _save_team_without_stats (school info) (stats_url info)
           ("Error: " +:+ str_of_exn e) 0 s.
Proof.
  intros Hlen Hg Hn Hdf Hlack.
  destruct (merge_lacking_key_err _ (school info) (stats_url info) (city_state info)
              _ _ _ Hg Hn Hdf Hlack) as [e He].
  exists e. unfold process_team.
  rewrite bool_decide_eq_false_2 by (intros ->; simpl in Hlen; lia).
  apply Nat.ltb_ge in Hlen. rewrite Hlen.
  fold (extracted_frames tables). by rewrite He.
Qed.

Lemma process_team_key_error_witness :
  ∃ e, process_team (λ _ : exn, "KeyError") Sample.riders (Page sample_page) (mkSinks [] [])
       = _save_team_without_stats "Riders" "/riders"
           ("Error: " +:+ (λ _ : exn, "KeyError") e) 0 (mkSinks [] []).
Proof.
  apply (process_team_key_error (λ _ : exn, "KeyError") Sample.riders sample_page
           (mkSinks [] []) batting
           [mkFrame ["#"; "ATHLETE NAME"; "AVG"; "AB"]
              [[Some "1"; Some "Ann Roe"; Some ".310"; Some "29"]];
            mkFrame ["#"; "NAME"; "2B"; "3B"]
              [[Some "2"; Some "Bea Poe"; Some "1"; Some "0"]]]
           (mkFrame ["#"; "NAME"; "2B"; "3B"]
              [[Some "2"; Some "Bea Poe"; Some "1"; Some "0"]])).
  - simpl. lia.
  - vm_compute. left.
  - simpl. lia.
  - right. left.
  - intros H. specialize (H "ATHLETE NAME" ltac:(right; left)). simpl in H.
    repeat (apply elem_of_cons in H as [H|H]; [discriminate H|]).
    by apply elem_of_nil in H.
Defined.

(** ** URL normalization *)

Section normalize_url.
Import PyStr.

Local Abbreviation R := replace_http.

Lemma R_match rest : R ("http://" +:+ rest) = "https://" +:+ R rest.
Proof. reflexivity. Qed.

Lemma R_https rest : R ("https://" +:+ rest) = "https://" +:+ R rest.
Proof. reflexivity. Qed.

Lemma R_base rest :
  R ("https://www.maxpreps.com" +:+ rest) = "https://www.maxpreps.com" +:+ R rest.
Proof. reflexivity. Qed.

Lemma R_nomatch c s :
  startswith "http://" (String c s) = false → R (String c s) = String c (R s).
Proof. intros H. unfold replace_http. cbn [replace_from]. by rewrite H. Qed.

Lemma R_head c r s :
  R s = String c r → c ≠ "h"%char → ∃ s', s = String c s' ∧ R s' = r.
Proof.
  intros HR Hc. destruct s as [|a s]; [discriminate HR|].
  destruct (startswith "http://" (String a s)) eqn:E.
  - apply startswith_spec in E as [post E]. rewrite E in HR.
    rewrite (R_match post) in HR.
    change ("https://" +:+ R post) with (String "h" ("ttps://" +:+ R post)) in HR.
    injection HR as Hh _. congruence.
  - rewrite (R_nomatch _ _ E) in HR. injection HR as -> <-. by exists s.
Qed.

Lemma R_not_startswith s : startswith "http://" (R s) = false.
Proof.
  destruct s as [|c s]; [done|].
  destruct (startswith "http://" (String c s)) eqn:E.
  - apply startswith_spec in E as [post ->]. by rewrite R_match.
  - rewrite (R_nomatch _ _ E). apply not_true_iff_false. intros H.
    apply startswith_spec in H as [post H]. injection H as -> H.
    apply R_head in H as (s1 & -> & H); [|done].
    apply R_head in H as (s2 & -> & H); [|done].
    apply R_head in H as (s3 & -> & H); [|done].
    apply R_head in H as (s4 & -> & H); [|done].
    apply R_head in H as (s5 & -> & H); [|done].
    apply R_head in H as (s6 & -> & H); [|done].
    simpl in E. discriminate E.
Qed.

Lemma R_no_old s : contains "http://" (R s) = false.
Proof.
  remember (String.length s) as n eqn:Hn. revert s Hn.
  induction n as [n IH] using lt_wf_ind. intros s Hn.
  destruct s as [|c s]; [done|].
  destruct (startswith "http://" (String c s)) eqn:E.
  - apply startswith_spec in E as [post E]. rewrite E, R_match.
    change (contains "http://" ("https://" +:+ R post))
      with (contains "http://" (R post)).
    apply (IH (String.length post)); [|done].
    rewrite Hn, E, string_length_app. simpl. lia.
  - rewrite (R_nomatch _ _ E).
    change (contains "http://" (String c (R s)))
      with (startswith "http://" (String c (R s)) || contains "http://" (R s)).
    rewrite <- (R_nomatch _ _ E), R_not_startswith. simpl.
    apply (IH (String.length s)); [|done]. rewrite Hn. simpl. lia.
Qed.

Lemma R_id s : contains "http://" s = false → R s = s.
Proof.
  induction s as [|c s IH]; [done|]. intros H.
  change (contains "http://" (String c s))
    with (startswith "http://" (String c s) || contains "http://" s) in H.
  apply orb_false_iff in H as [H1 H2].
  by rewrite (R_nomatch _ _ H1), IH.
Qed.

Lemma normalize_url_R url :
  _normalize_url url
  = R (if negb (startswith "http://" url || startswith "https://" url)
       then "https://www.maxpreps.com" +:+ url else url).
Proof. reflexivity. Qed.

Lemma normalize_url_https url :
  startswith "https://" (_normalize_url url) = true.
Proof.
  rewrite normalize_url_R.
  destruct (startswith "http://" url) eqn:E1.
  { cbn [orb negb]. apply startswith_spec in E1 as [post ->]. by rewrite R_match. }
  destruct (startswith "https://" url) eqn:E2.
  { cbn [orb negb]. apply startswith_spec in E2 as [post ->]. by rewrite R_https. }
  cbn [orb negb]. by rewrite R_base.
Qed.

(** X19: [_normalize_url] always returns an https URL: the result starts
    with "https://" and contains "http://" nowhere, whether the argument is
    a path, an http URL or an https URL. *)
Theorem normalize_url_is_https (url : string) :
  startswith "https://" (_normalize_url url) = true
  ∧ contains "http://" (_normalize_url url) = false.
Proof.
  split; [apply normalize_url_https|]. rewrite normalize_url_R. apply R_no_old.
Qed.

(** X20: [_normalize_url] is idempotent. *)
Theorem normalize_url_idempotent (url : string) :
  _normalize_url (_normalize_url url) = _normalize_url url.
Proof.
  rewrite (normalize_url_R (_normalize_url url)).
  rewrite normalize_url_https, orb_true_r. cbn [negb].
  apply R_id. rewrite normalize_url_R. apply R_no_old.
Qed.

End normalize_url.

(** ** The run over the teams of a state *)

Section state_teams.
Context (str_of_exn : exn → string).

Local Abbreviation step := (run_step str_of_exn).

Lemma process_state_teams_fold lookup state_abbr :
  process_state_teams str_of_exn (Some lookup) state_abbr
  = foldl step (mkSinks [header_line] [])
      (filter (λ r, abbr r = PyStr.lower state_abbr) lookup).
Proof.
  unfold process_state_teams. case_bool_decide as Hlen; [|done].
  by apply nil_length_inv in Hlen as ->.
Qed.

Lemma foldl_step_stats rows s t df :
  (t, df) ∈ stats_files (foldl step s rows) →
  (t, df) ∈ stats_files s ∨ ∃ r, r ∈ rows ∧ carries_team (team r) df.
Proof.
  revert s. induction rows as [|r rows IH]; intros s; simpl; [by left|].
  intros [Hin|(r' & Hr' & Hc)]%IH.
  - unfold run_step in Hin.
    destruct (process_team_added str_of_exn (team r) (fetched r) s)
      as (added & Heq & Hadd).
    rewrite Heq in Hin. apply elem_of_app in Hin as [Hin|Hin]; [by left|].
    right. exists r. split; [left|by eapply Hadd].
  - right. exists r'. split; [by right|done].
Qed.

Lemma foldl_step_lines rows s :
  ∃ lines, teams_without_stats (foldl step s rows) = teams_without_stats s ++ lines
           ∧ length lines ≤ length rows.
Proof.
  revert s. induction rows as [|r rows IH]; intros s; simpl.
  - exists []. by rewrite app_nil_r.
  - destruct (IH (step s r)) as (lines & -> & Hlen). unfold run_step at 1.
    destruct (process_team_cases str_of_exn (team r) (fetched r) s)
      as [(reason & n & ->)|(tables & merged & _ & _ & _ & ->)]; simpl.
    + eexists (_ :: lines). rewrite <- (assoc_L (++)). split; [done|]. simpl. lia.
    + exists lines. split; [done|]. lia.
Qed.

(** X21: every table a run appends to the statistics files of a state
    belongs to a team of that state: its rows hold the name, the city and
    state and the URL of one lookup row whose abbreviation equals the
    lowercased state argument. *)
Theorem state_tables_name_state_teams
    (lookup : list LookupRow) (state_abbr : string) (t : table_type) (df : DataFrame) :
  (t, df) ∈ stats_files (process_state_teams str_of_exn (Some lookup) state_abbr) →
  ∃ r, r ∈ lookup ∧ abbr r = PyStr.lower state_abbr ∧ carries_team (team r) df.
Proof.
  rewrite process_state_teams_fold.
  intros [Hin|(r & Hr & Hc)]%foldl_step_stats; [by apply elem_of_nil in Hin|].
  apply list_elem_of_filter in Hr as [? ?]. by exists r.
Qed.

(** X22: the teams-without-stats file of a run starts with the header line
    and gets at most one further line for each lookup row of the state; an
    unreadable lookup table leaves the header line alone and no
    statistics. *)
Theorem state_run_report (lookup : list LookupRow) (state_abbr : string) :
  (∃ lines,
     teams_without_stats (process_state_teams str_of_exn (Some lookup) state_abbr)
     = header_line :: lines
     ∧ length lines
       ≤ length (filter (λ r, abbr r = PyStr.lower state_abbr) lookup))
  ∧ process_state_teams str_of_exn None state_abbr = mkSinks [header_line] [].
Proof.
  split; [|done]. rewrite process_state_teams_fold.
  destruct (foldl_step_lines
              (filter (λ r, abbr r = PyStr.lower state_abbr) lookup)
              (mkSinks [header_line] [])) as (lines & Heq & Hlen).
  exists lines. by rewrite Heq.
Qed.

Lemma lower_char_idem c : PyStr.lower_char (PyStr.lower_char c) = PyStr.lower_char c.
Proof. destruct c as [[] [] [] [] [] [] [] []]; reflexivity. Qed.

Lemma lower_idem s : PyStr.lower (PyStr.lower s) = PyStr.lower s.
Proof. induction s as [|c s IH]; simpl; [done|]. by rewrite lower_char_idem, IH. Qed.

(** X23: the state argument is lowercased but the abbreviations of the
    lookup table are compared as they are: when every abbreviation of the
    lookup table has an upper-case letter, no team is processed, whatever
    the argument is. *)
Theorem state_run_uppercase_lookup (lookup : list LookupRow) (state_abbr : string) :
  (∀ r, r ∈ lookup → abbr r ≠ PyStr.lower (abbr r)) →
  process_state_teams str_of_exn (Some lookup) state_abbr = mkSinks [header_line] [].
Proof.
  intros Hup. rewrite process_state_teams_fold.
  replace (filter (λ r, abbr r = PyStr.lower state_abbr) lookup) with (@nil LookupRow);
    [done|].
  symmetry. destruct (filter _ lookup) as [|r ?] eqn:E; [done|]. exfalso.
  assert (Hr : r ∈ filter (λ r, abbr r = PyStr.lower state_abbr) lookup)
    by (rewrite E; left).
  apply list_elem_of_filter in Hr as [Ha Hr]. apply (Hup r Hr).
  by rewrite Ha, lower_idem.
Qed.

End state_teams.

Lemma state_tables_name_state_teams_witness :
  ∃ r, r ∈ sample_lookup ∧ abbr r = PyStr.lower "DE"
       ∧ carries_team (team r) Sample.merged_batting.
Proof.
  apply (state_tables_name_state_teams (λ _, "") sample_lookup "DE" batting).
  vm_compute. left.
Defined.

Lemma state_run_uppercase_lookup_witness :
  process_state_teams (λ _, "") (Some sample_lookup_upper) "DE"
  = mkSinks [header_line] [].
Proof.
  apply (state_run_uppercase_lookup (λ _, "") sample_lookup_upper "DE").
  intros r Hr. apply list_elem_of_singleton in Hr as ->. intros H. discriminate H.
Defined.

Lemma process_team_rows_name_team_witness :
  carries_team Sample.riders Sample.merged_batting.
Proof.
  destruct (process_team_rows_name_team (λ _, "") Sample.riders
              (Page sample_page_ok) (mkSinks [] [])) as (added & Heq & Hadd).
  apply (Hadd batting). vm_compute in Heq. subst added. left.
Defined.

(** ** Category merger: no athlete is invented *)

Lemma joined_rows_inv lrows rrows lw rw lpos rpos k row :
  row ∈ Pandas.joined_rows lrows rrows lw rw lpos rpos k →
  (∃ l x, l ∈ lrows ∧ Pandas.key_of lpos l = k ∧ row = l ++ x)
  ∨ (∃ r, r ∈ rrows ∧ Pandas.key_of rpos r = k
          ∧ row = Pandas.left_part_of_key lw lpos k ++ Pandas.drop_positions rpos r).
Proof.
  unfold Pandas.joined_rows.
  set (ls := filter (λ row, Pandas.key_of lpos row = k) lrows).
  set (rs := filter (λ row, Pandas.key_of rpos row = k) rrows).
  assert (Hls : ∀ l, l ∈ ls → l ∈ lrows ∧ Pandas.key_of lpos l = k).
  { intros l [? ?]%list_elem_of_filter. done. }
  assert (Hrs : ∀ r, r ∈ rs → r ∈ rrows ∧ Pandas.key_of rpos r = k).
  { intros r [? ?]%list_elem_of_filter. done. }
  clearbody ls rs. destruct ls as [|l0 ls].
  - intros (r & -> & Hin)%list_elem_of_fmap. right. exists r.
    destruct (Hrs r Hin). done.
  - destruct rs as [|r0 rs].
    + intros (l & -> & Hin)%list_elem_of_fmap. left.
      destruct (Hls l Hin). by eexists l, _.
    + intros (l & Hin & Hl)%list_elem_of_bind.
      apply list_elem_of_bind in Hin as (r & Hin & Hr).
      apply list_elem_of_singleton in Hin as ->. left.
      destruct (Hls l Hl). by eexists l, _.
Qed.

Lemma merge_step_rows_inv acc d m row :
  has_value_column d → wf_frame acc → merge_step acc d = Ok m → row ∈ rows m →
  (∃ l, l ∈ rows acc ∧ athlete_key m row = athlete_key acc l)
  ∨ (∃ r, r ∈ rows d ∧ athlete_key m row = athlete_key d r).
Proof.
  intros Hv Hwf Hm Hrow.
  assert (Hkey : ∀ lp x, length lp = length (columns acc) →
            athlete_key m (lp ++ x) = athlete_key acc lp).
  { intros lp x. apply athlete_key_app. intros k.
    by apply (merge_step_key_positions acc d). }
  destruct (merge_step_inv _ _ _ Hv Hm)
    as (i1 & i2 & a1 & a2 & Hi1 & Hi2 & Ha1 & Ha2 & _ & Hrows).
  simpl in Hrows. rewrite Hrows in Hrow. clear Hrows.
  apply list_elem_of_bind in Hrow as (k & Hrow & _).
  apply joined_rows_inv in Hrow as [(l & x & Hl & _ & ->)|(r' & Hr' & Hk & ->)].
  - left. exists l. split; [done|]. apply Hkey.
    unfold wf_frame in Hwf. rewrite Forall_forall in Hwf. auto.
  - right. apply list_elem_of_fmap in Hr' as (r & -> & Hr). exists r. split; [done|].
    assert (Hne : i1 ≠ i2).
    { intros <-. assert (H1 : i1 ∈ positions (columns acc) "#") by (rewrite Hi1; left).
      assert (H2 : i1 ∈ positions (columns acc) "ATHLETE NAME") by (rewrite Hi2; left).
      apply elem_of_positions in H1, H2. congruence. }
    pose proof (position_lt _ _ _ Hi1) as Hlt1.
    pose proof (position_lt _ _ _ Hi2) as Hlt2.
    rewrite Hkey by (unfold Pandas.left_part_of_key; by rewrite length_fmap, length_seq).
    rewrite (athlete_key_unique _ _ _ _ Hi1 Hi2), (athlete_key_unique _ _ _ _ Ha1 Ha2).
    subst k.
    change (Pandas.key_of [0; 1] (cell_at r a1 :: cell_at r a2 :: value_cells d r))
      with [cell_at r a1; cell_at r a2].
    assert (Hc : ∀ i, i < length (columns acc) →
              cell_at (Pandas.left_part_of_key (length (columns acc)) [i1; i2]
                         [cell_at r a1; cell_at r a2]) i
              = if bool_decide (i = i1) then cell_at r a1
                else if bool_decide (i = i2) then cell_at r a2 else None).
    { intros i Hi. unfold cell_at at 1.
      by rewrite left_part_of_key_lookup by done. }
    rewrite !Hc by done.
    rewrite (bool_decide_eq_true_2 (i1 = i1)) by done.
    rewrite (bool_decide_eq_false_2 (i2 = i1)) by congruence.
    by rewrite (bool_decide_eq_true_2 (i2 = i2)) by done.
Qed.

Lemma merge_all_rows_inv acc dfs m row :
  Forall has_value_column dfs → wf_frame acc → merge_all acc dfs = Ok m →
  row ∈ rows m →
  ∃ d r, d ∈ acc :: dfs ∧ r ∈ rows d ∧ athlete_key m row = athlete_key d r.
Proof.
  intros Hv. revert acc. induction Hv as [|d0 dfs Hd0 Hv IH]; intros acc Hwf; simpl.
  - intros [= <-] Hrow. exists acc, row. split_and!; [left|done|done].
  - destruct (merge_step acc d0) as [m1|] eqn:Es; [|done]. simpl. intros Hm Hrow.
    pose proof (merge_step_wf _ _ _ Hwf Es) as Hwf1.
    destruct (IH m1 Hwf1 Hm Hrow) as (d & r & Hd & Hr & Heq).
    apply elem_of_cons in Hd as [->|Hd].
    + destruct (merge_step_rows_inv _ _ _ _ Hd0 Hwf Es Hr)
        as [(l & Hl & E)|(r0 & Hr0 & E)].
      * exists acc, l. split_and!; [left|done|by rewrite Heq, E].
      * exists d0, r0. split_and!; [right; left|done|by rewrite Heq, E].
    + exists d, r. split_and!; [by do 2 right|done|done].
Qed.

Lemma set_column_rows_inv name value df row' :
  name ∉ key_columns → wf_frame df → row' ∈ rows (set_column name value df) →
  ∃ row, row ∈ rows df
         ∧ athlete_key (set_column name value df) row' = athlete_key df row.
Proof.
  intros Hname Hwf. unfold wf_frame in Hwf. rewrite Forall_forall in Hwf.
  unfold set_column. case_bool_decide as Hin; cbn [rows];
    intros (row & -> & Hrow)%list_elem_of_fmap; exists row; (split; [done|]).
  - unfold athlete_key. cbn [columns]. apply list_fmap_ext. intros n k Hk.
    apply list_fmap_ext. intros j i Hi.
    apply list_elem_of_lookup_2, elem_of_positions in Hi.
    unfold cell_at. rewrite list_lookup_imap.
    destruct (row !! i) as [c|]; simpl; [|done].
    rewrite bool_decide_eq_false_2; [done|]. rewrite Hi. intros [= ->].
    by eapply Hname, list_elem_of_lookup_2.
  - apply athlete_key_app; [|by apply Hwf]. intros k Hk. simpl.
    rewrite positions_app, (positions_not_elem [name]); [by rewrite app_nil_r|].
    intros ->%list_elem_of_singleton. done.
Qed.

Lemma add_team_info_rows_inv team_name team_url city_state df row' :
  wf_frame df → row' ∈ rows (add_team_info team_name team_url city_state df) →
  ∃ row, row ∈ rows df
         ∧ athlete_key (add_team_info team_name team_url city_state df) row'
           = athlete_key df row.
Proof.
  intros Hwf Hrow. unfold add_team_info in *.
  assert (Hn : ∀ n, n ∈ ["TEAM"; "CITY_STATE"; "STATS_URL"] → n ∉ key_columns).
  { intros n Hn Hk. unfold key_columns in Hk.
    repeat (apply elem_of_cons in Hn as [->|Hn]; [set_solver|]).
    by apply elem_of_nil in Hn. }
  pose proof (set_column_wf "TEAM" team_name df Hwf) as Hwf1.
  pose proof (set_column_wf "CITY_STATE" city_state _ Hwf1) as Hwf2.
  apply set_column_rows_inv in Hrow as (r2 & H2 & E2);
    [|apply Hn; set_solver|done].
  apply set_column_rows_inv in H2 as (r1 & H1 & E1);
    [|apply Hn; set_solver|done].
  apply set_column_rows_inv in H1 as (r0 & H0 & E0);
    [|apply Hn; set_solver|done].
  exists r0. split; [done|]. by rewrite E2, E1, E0.
Qed.

(** X24: the merger invents no athlete: for rectangular input frames,
    the join key of every row of a merged table is the join key of a row
    of one of the frames of its category. *)
Theorem merged_rows_come_from_sources
    (tables : list DataFrame) (team_name team_url city_state : string)
    (merged : list (table_type * DataFrame)) (t : table_type) (df : DataFrame)
    (row : list cell) :
  Forall wf_frame tables →
  _merge_tables_by_type tables team_name team_url city_state = Ok merged →
  (t, df) ∈ merged → row ∈ rows df →
  ∃ d r, d ∈ group_of t tables ∧ r ∈ rows d ∧ athlete_key df row = athlete_key d r.
Proof.
  intros Hwf Hm Hdf Hrow. unfold _merge_tables_by_type in Hm.
  destruct (merge_groups_ok_elem _ _ _ _ _ _ _ Hm Hdf)
    as (first & rest & m & Hg & Hall & ->).
  apply group_tables_elem in Hg.
  assert (Hv : Forall has_value_column rest).
  { apply Forall_forall. intros d Hd.
    apply (group_member_has_value_column t tables). rewrite <- Hg. by right. }
  assert (Hwf0 : wf_frame first).
  { assert (Hf : first ∈ group_of t tables) by (rewrite <- Hg; left).
    apply group_of_elem in Hf as (d0 & Hd0 & -> & _).
    apply normalize_columns_wf. rewrite Forall_forall in Hwf. auto. }
  apply add_team_info_rows_inv in Hrow as (row1 & H1 & E1);
    [|by eapply merge_all_wf].
  destruct (merge_all_rows_inv _ _ _ _ Hv Hwf0 Hall H1) as (d & r & Hd & Hr & E).
  exists d, r. rewrite <- Hg. split_and!; [done|done|]. by rewrite E1, E.
Qed.

Lemma merged_rows_come_from_sources_witness :
  ∃ d r, d ∈ group_of batting [Sample.batting_1; Sample.batting_2] ∧ r ∈ rows d
         ∧ athlete_key Sample.merged_batting
             [Some "3"; Some "Cat Doe"; None; None; Some "4"; Some "2";
              Some "Riders"; Some "Camden, DE"; Some "/riders"]
           = athlete_key d r.
Proof.
  apply (merged_rows_come_from_sources [Sample.batting_1; Sample.batting_2]
           "Riders" "/riders" "Camden, DE" [(batting, Sample.merged_batting)]).
  - repeat constructor.
  - by vm_compute.
  - left.
  - do 2 right. left.
Defined.
